(** * Coverage remapping of the code-coverage bot

    A shallow embedding of [bot/code_coverage_bot/phabricator.py]:
    [parse_revision_id], [parse_revision_url], and the methods
    [_find_coverage], [_build_coverage_map], [_apply_coverage_map],
    [is_third_party], [is_supported_extension] and [generate] of
    [PhabricatorUploader]. The constructor, which reads a file, and
    [upload], which talks to Phabricator, are not modelled.

    Python values are modelled as follows.
    - [int] is [Z]; [str] is [string]; a list is a [list].
    - A [dict] used as a finite map is a [gmap]: the coverage map is keyed
      by the tuple [(node, targetline)], the results by changeset node and
      by path.
    - A JSON object with fixed keys (an annotate line, a changeset) is a
      record; a covdir node, whose keys ["children"] and ["coverage"] may
      be missing, has optional fields.
    - A raised exception is the [Raise] case of [result]; subscripts
      ([d[k]], [l[i]], [s[i]]) are the only operations of these methods that
      raise, together with the [assert False] of [generate].
    - Logging has no effect on the value returned and is left out. *)

From stdpp Require Import gmap strings list fin_maps.
From Stdlib Require Import ZArith Ascii.
From Stdlib Require String.

Local Open Scope Z_scope.

(** ** Exceptions *)

Inductive exn := KeyError | IndexError | AssertionError.

Inductive result (A : Type) :=
  | Ok (a : A)
  | Raise (e : exn).
Arguments Ok {A} a.
Arguments Raise {A} e.

Global Instance result_ret : MRet result := λ A a, Ok a.

Global Instance result_bind : MBind result := λ A B k r,
  match r with
  | Ok a => k a
  | Raise e => Raise e
  end.

Definition raises {A} (r : result A) : Prop :=
  match r with
  | Ok _ => False
  | Raise _ => True
  end.

(** [for x in l: s = body(s, x)], where the body may raise. *)
Fixpoint for_each {S A} (body : S → A → result S) (l : list A) (s : S)
    : result S :=
  match l with
  | [] => Ok s
  | x :: l' => s' ← body s x; for_each body l' s'
  end.

(** ** Python subscripts *)

(** [l[i]] on a list: a negative index counts from the end, and an index
    outside [-len(l) .. len(l)-1] raises [IndexError]. *)
Definition py_index {A} (l : list A) (i : Z) : result A :=
  let n := Z.of_nat (length l) in
  let j := if i <? 0 then i + n else i in
  if (0 <=? j) && (j <? n) then
    match l !! Z.to_nat j with
    | Some x => Ok x
    | None => Raise IndexError
    end
  else Raise IndexError.

(** [s[i]] on a [str]. *)
Definition py_str_index (s : string) (i : Z) : result ascii :=
  py_index (String.list_ascii_of_string s) i.

(** [len(s)] on a [str]. *)
Definition py_str_len (s : string) : Z := Z.of_nat (String.length s).

(** ** Annotate data *)

(** One line of the annotate data of a file at a changeset: its line
    number at that changeset (["lineno"], from 1), the line number it had
    when it was introduced (["targetline"]) and the changeset that
    introduced it (["node"]). *)
Record annotate_line := {
  lineno : Z;
  targetline : Z;
  node : string;
}.

Definition line_key (data : annotate_line) : string * Z :=
  (node data, targetline data).

(** Line numbers start from 1 in the annotate data. *)
Definition one_based (annotate : list annotate_line) : Prop :=
  Forall (λ data, 1 ≤ lineno data) annotate.

Global Instance one_based_dec annotate : Decision (one_based annotate).
Proof. unfold one_based. apply _. Defined.

(** ** [_build_coverage_map] *)

Definition build_body (coverage_record : list Z)
    (coverage_map : gmap (string * Z) Z) (data : annotate_line)
    : result (gmap (string * Z) Z) :=
  let lineno := lineno data - 1 in
  let orig_line := targetline data in
  let orig_changeset := node data in
  if lineno <? Z.of_nat (length coverage_record) then
    let key := (orig_changeset, orig_line) in
    count ← py_index coverage_record lineno;
    Ok (<[key := count]> coverage_map)
  else Ok coverage_map.

Definition _build_coverage_map (annotate : list annotate_line)
    (coverage_record : list Z) : result (gmap (string * Z) Z) :=
  for_each (build_body coverage_record) annotate ∅.

(** ** [_apply_coverage_map] *)

Definition apply_body (coverage_map : gmap (string * Z) Z)
    (phab_coverage_data : string) (data : annotate_line) : string :=
  let orig_line := targetline data in
  let orig_changeset := node data in
  let key := (orig_changeset, orig_line) in
  match coverage_map !! key with
  | Some count =>
      if count =? -1 then phab_coverage_data +:+ "N"
      else if count >? 0 then phab_coverage_data +:+ "C"
      else phab_coverage_data +:+ "U"
  | None => phab_coverage_data +:+ "X"
  end.

Definition _apply_coverage_map (annotate : list annotate_line)
    (coverage_map : gmap (string * Z) Z) : string :=
  fold_left (apply_body coverage_map) annotate "".

(** ** [_find_coverage] *)

(** A node of a covdir report: a JSON object in which a directory carries
    ["children"] (a JSON object from names to nodes) and a file carries
    ["coverage"] (its hit counts, one per line, [-1] for a line that is
    not executable). Either key may be missing from a node. *)
#[warnings="-register-all"]
Inductive covdir :=
  Covdir (children : option (gmap string covdir)) (coverage : option (list Z)).

Definition children (report : covdir) : option (gmap string covdir) :=
  match report with Covdir c _ => c end.

Definition coverage (report : covdir) : option (list Z) :=
  match report with Covdir _ c => c end.

(** [d[k]] on a JSON object whose key [k] may be missing. *)
Definition py_getitem {A} (field : option A) : result A :=
  match field with
  | Some a => Ok a
  | None => Raise KeyError
  end.

(** [s.split(sep)] for a separator of one character. *)
Fixpoint split (sep : ascii) (s : string) : list string :=
  match s with
  | EmptyString => [EmptyString]
  | String c s' =>
      if decide (c = sep) then EmptyString :: split sep s'
      else match split sep s' with
           | [] => [String c EmptyString]
           | w :: ws => String c w :: ws
           end
  end.

(** [filter(None, parts)]: the parts that are not the empty string. *)
Definition nonempty_parts (parts : list string) : list string :=
  filter (λ part, part ≠ EmptyString) parts.

(** The [for] loop of [_find_coverage] and the [return] after it. The
    value [Ok None] is the bare [return] of the loop (path not found). *)
Fixpoint descend (report : covdir) (parts : list string)
    : result (option (list Z)) :=
  match parts with
  | [] => c ← py_getitem (coverage report); Ok (Some c)
  | part :: parts' =>
      chn ← py_getitem (children report);
      match chn !! part with
      | None => Ok None
      | Some child => descend child parts'
      end
  end.

Definition _find_coverage (report : covdir) (path : string)
    : result (option (list Z)) :=
  let parts := split "/" path in
  descend report (nonempty_parts parts).

(** ** [parse_revision_id] *)

(** An element of the prefix of [PHABRICATOR_REVISION_REGEX]: a literal
    character, or the unescaped [.] that matches any character but a
    newline. *)
Inductive pat := Lit (c : ascii) | Dot.

Definition lits (s : string) : list pat :=
  Lit <$> String.list_ascii_of_string s.

(** The regular expression up to its last group, [([0-9]+)]. *)
Definition PHABRICATOR_REVISION_PREFIX : list pat :=
  lits "Differential Revision: https://phabricator" ++ [Dot] ++
  lits "services" ++ [Dot] ++ lits "mozilla" ++ [Dot] ++ lits "com/D".

Definition pat_matches (p : pat) (c : ascii) : bool :=
  match p with
  | Lit c' => bool_decide (c = c')
  | Dot => negb (bool_decide (c = "010"%char))
  end.

(** Match the prefix at the start of [s]; the rest of [s] on success. *)
Fixpoint match_prefix (ps : list pat) (s : string) : option string :=
  match ps with
  | [] => Some s
  | p :: ps' =>
      match s with
      | EmptyString => None
      | String c s' => if pat_matches p c then match_prefix ps' s' else None
      end
  end.

Definition digit_value (c : ascii) : option Z :=
  Z.of_nat <$> Ascii.is_nat c.

(** The longest run of [[0-9]] at the start of [s], most significant
    digit first. *)
Fixpoint take_digits (s : string) : list Z :=
  match s with
  | EmptyString => []
  | String c s' =>
      match digit_value c with
      | Some d => d :: take_digits s'
      | None => []
      end
  end.

(** [int] of a run of decimal digits. *)
Definition int_of_digits (ds : list Z) : Z :=
  fold_left (λ n d, 10 * n + d) ds 0.

(** A match of the whole expression at the start of [s]: group 2. *)
Definition match_here (s : string) : option (list Z) :=
  match match_prefix PHABRICATOR_REVISION_PREFIX s with
  | Some rest =>
      match take_digits rest with
      | [] => None
      | ds => Some ds
      end
  | None => None
  end.

(** [PHABRICATOR_REVISION_REGEX.search]: the leftmost match. *)
Fixpoint search (s : string) : option (list Z) :=
  match match_here s with
  | Some ds => Some ds
  | None =>
      match s with
      | EmptyString => None
      | String _ s' => search s'
      end
  end.

Definition parse_revision_id (desc : string) : option Z :=
  match search desc with
  | None => None
  | Some group2 => Some (int_of_digits group2)
  end.

(** ** [generate] *)

(** An element of [changesets]. *)
Record changeset := {
  cs_node : string;
  desc : string;
  files : list string;
}.

(** The value stored at [results[node]["paths"][path]]. *)
Record path_result := {
  lines_added : Z;
  lines_unknown : Z;
  lines_covered : Z;
  coverage_data : string;
}.

(** The value stored at [results[node]]. *)
Record revision_result := {
  revision_id : Z;
  paths : gmap string path_result;
}.

(** The list [lines_added] of [generate]:
    [[line["lineno"] - 1 for line in annotate if line["node"] == node]]. *)
Definition added_lines (cs : string) (annotate : list annotate_line)
    : list Z :=
  (λ line, lineno line - 1) <$> filter (λ line, node line = cs) annotate.

(** One step of [sum(test(coverage[line]) for line in lines_added
    if line < len(coverage))]. *)
Definition count_body (coverage : string) (test : ascii → bool)
    (total : Z) (line : Z) : result Z :=
  if line <? py_str_len coverage then
    c ← py_str_index coverage line;
    Ok (total + (if test c then 1 else 0))
  else Ok total.

Definition count_lines (coverage : string) (test : ascii → bool)
    (lines : list Z) : result Z :=
  for_each (count_body coverage test) lines 0.

Definition is_not_N (c : ascii) : bool := negb (bool_decide (c = "N"%char)).
Definition is_X (c : ascii) : bool := bool_decide (c = "X"%char).
Definition is_C (c : ascii) : bool := bool_decide (c = "C"%char).

(** Lines 186 to 213: the statistics of one path of one changeset. *)
Definition path_stats (cs : string) (annotate : list annotate_line)
    (coverage_map : gmap (string * Z) Z) : result path_result :=
  let added := added_lines cs annotate in
  let coverage := _apply_coverage_map annotate coverage_map in
  n_added ← count_lines coverage is_not_N added;
  n_unknown ← count_lines coverage is_X added;
  n_covered ← count_lines coverage is_C added;
  Ok {| lines_added := n_added;
        lines_unknown := n_unknown;
        lines_covered := n_covered;
        coverage_data := coverage |}.

Section generate.

(** [self.revision], the changeset of the build. *)
Variable revision : string.

(** [hgmo_server.get_annotate(node, path)]: the annotate data of [path]
    at [node], or [None] when the file does not exist there. *)
Variable get_annotate : string → string → option (list annotate_line).

(** What one path yields: [Ok None] is a [continue]. *)
Definition process_path (report : covdir) (cs : string) (path : string)
    : result (option path_result) :=
  coverage_record ← _find_coverage report path;
  match coverage_record with
  | None => Ok None
  | Some coverage_record =>
      match get_annotate revision path with
      | None => Raise AssertionError
      | Some build_annotate =>
          coverage_map ←
            _build_coverage_map build_annotate coverage_record;
          match get_annotate cs path with
          | None => Ok None
          | Some annotate =>
              stats ← path_stats cs annotate coverage_map;
              Ok (Some stats)
          end
      end
  end.

(** [d[node]["paths"][path] = stats]. *)
Definition store_path (cs path : string) (stats : path_result)
    (results : gmap string revision_result)
    : result (gmap string revision_result) :=
  entry ← py_getitem (results !! cs);
  Ok (<[cs := {| revision_id := revision_id entry;
                 paths := <[path := stats]> (paths entry) |}]> results).

(** The body of [for path in changeset["files"]]. *)
Definition path_body (report : covdir) (cs : string)
    (results : gmap string revision_result) (path : string)
    : result (gmap string revision_result) :=
  outcome ← process_path report cs path;
  match outcome with
  | None => Ok results
  | Some stats => store_path cs path stats results
  end.

(** The body of [for changeset in changesets]. *)
Definition changeset_body (report : covdir)
    (results : gmap string revision_result) (c : changeset)
    : result (gmap string revision_result) :=
  match parse_revision_id (desc c) with
  | None => Ok results
  | Some rev_id =>
      let results :=
        <[cs_node c := {| revision_id := rev_id; paths := ∅ |}]> results in
      for_each (path_body report (cs_node c)) (files c) results
  end.

Definition generate (report : covdir) (changesets : list changeset)
    : result (gmap string revision_result) :=
  for_each (changeset_body report) changesets ∅.

(** The entry that a changeset with a revision id leaves in the results:
    its revision id, and the statistics of its files that are not
    skipped. *)
Definition entry_of (report : covdir) (c : changeset) (e : revision_result)
    : Prop :=
  parse_revision_id (desc c) = Some (revision_id e) ∧
  ∀ path stats,
    paths e !! path = Some stats ↔
    path ∈ files c ∧ process_path report (cs_node c) path = Ok (Some stats).

(** Every path of the changeset is skipped. *)
Definition all_skipped (report : covdir) (c : changeset) : Prop :=
  ∀ path, path ∈ files c → process_path report (cs_node c) path = Ok None.

End generate.

(** ** The wording of the specification

    The definitions below follow the specification, not the code; the
    theorems compare the two. *)

(** The symbol that a raw count dictates: [-1] is not executable, a
    positive count is covered, anything else is uncovered. *)
Definition spec_symbol_of_raw (count : Z) : ascii :=
  if decide (count = -1) then "N"%char
  else if decide (0 < count) then "C"%char
  else "U"%char.

(** The symbol of a line whose key has the given entry in the map. *)
Definition spec_symbol (entry : option Z) : ascii :=
  match entry with
  | None => "X"%char
  | Some count => spec_symbol_of_raw count
  end.

(** The four cases of the classification of a line, by the entry of
    its key in the map. *)
Definition spec_classifies (entry : option Z) (c : ascii) : Prop :=
  (entry = None → c = "X"%char) ∧
  (entry = Some (-1) → c = "N"%char) ∧
  (∀ count, entry = Some count → 0 < count → c = "C"%char) ∧
  (∀ count, entry = Some count → count ≤ 0 → count ≠ -1 → c = "U"%char).

(** A 0-based index within the bounds of a sequence of [n] elements. *)
Definition within_bounds (n : nat) (i : Z) : Prop := 0 ≤ i < Z.of_nat n.

Global Instance within_bounds_dec n i : Decision (within_bounds n i).
Proof. unfold within_bounds. apply _. Defined.

(** The annotate data lists the lines of the file in order: the record
    at position [i] is that of line [i + 1]. *)
Definition numbered_in_order (annotate : list annotate_line) : Prop :=
  ∀ i p, annotate !! i = Some p → lineno p = Z.of_nat i + 1.

(** [build_map]: a record whose 0-based line is within the bounds of the
    raw coverage inserts an entry for its key, any other record is
    dropped. *)
Definition spec_build_step (raw : list Z) (m : gmap (string * Z) Z)
    (p : annotate_line) : gmap (string * Z) Z :=
  if decide (within_bounds (length raw) (lineno p - 1)) then
    match raw !! Z.to_nat (lineno p - 1) with
    | Some count => <[line_key p := count]> m
    | None => m
    end
  else m.

Definition spec_build_map (annotate : list annotate_line) (raw : list Z)
    : gmap (string * Z) Z :=
  fold_left (spec_build_step raw) annotate ∅.

(** The added lines of a revision: the visible line numbers, as 0-based
    indices, of the records that the revision introduced. *)
Definition spec_added_lines (cs : string) (annotate : list annotate_line)
    : list Z :=
  p ← annotate; if decide (node p = cs) then [lineno p - 1] else [].

(** The symbol at a 0-based index satisfies [test]; false out of bounds. *)
Definition spec_symbol_at (cls : string) (test : ascii → bool) (i : Z)
    : bool :=
  bool_decide (within_bounds (String.length cls) i) &&
  match String.get (Z.to_nat i) cls with
  | Some c => test c
  | None => false
  end.

(** The number of added lines, within the bounds of the classification,
    whose symbol satisfies [test]. *)
Definition spec_count (cls : string) (test : ascii → bool)
    (added : list Z) : Z :=
  Z.of_nat (length (filter (λ i, spec_symbol_at cls test i = true) added)).

(** The node reached from [report] by descending through the children
    named by [parts], one segment at a time. *)
Inductive reaches : covdir → list string → covdir → Prop :=
  | reaches_here (report : covdir) : reaches report [] report
  | reaches_child (report child target : covdir)
      (chn : gmap string covdir) (part : string) (parts : list string) :
      children report = Some chn →
      chn !! part = Some child →
      reaches child parts target →
      reaches report (part :: parts) target.


(** ** The worked example of the specification

    A file of four lines built at [r0], with raw coverage [-1, 1, 1, 0];
    the revision [r1] inserts one line after line 2. *)

Definition example_raw : list Z := [-1; 1; 1; 0].

Definition example_build_annotate : list annotate_line :=
  [ {| lineno := 1; targetline := 1; node := "r0" |};
    {| lineno := 2; targetline := 2; node := "r0" |};
    {| lineno := 3; targetline := 3; node := "r0" |};
    {| lineno := 4; targetline := 4; node := "r0" |} ].

Definition example_target_annotate : list annotate_line :=
  [ {| lineno := 1; targetline := 1; node := "r0" |};
    {| lineno := 2; targetline := 2; node := "r0" |};
    {| lineno := 3; targetline := 1; node := "r1" |};
    {| lineno := 4; targetline := 3; node := "r0" |};
    {| lineno := 5; targetline := 4; node := "r0" |} ].

Definition example_get_annotate (rev path : string)
    : option (list annotate_line) :=
  if decide (path = "file") then
    if decide (rev = "r0") then Some example_build_annotate
    else if decide (rev = "r1") then Some example_target_annotate
    else None
  else None.

Definition example_report : covdir :=
  Covdir (Some {[ "file" := Covdir None (Some example_raw) ]}) None.

Definition example_changesets : list changeset :=
  [ {| cs_node := "r1";
       desc :=
         "Differential Revision: https://phabricator.services.mozilla.com/D1";
       files := ["file"] |} ].

(** ** The test of the repository

    [test_notification]: a file of four lines is added by [revision1] and
    grows to ten lines in [revision2], the changeset of the build. The
    report gives the first line as not executable. *)

Definition test_annotate_revision1 : list annotate_line :=
  [ {| lineno := 1; targetline := 1; node := "revision1" |};
    {| lineno := 2; targetline := 2; node := "revision1" |};
    {| lineno := 3; targetline := 3; node := "revision1" |};
    {| lineno := 4; targetline := 4; node := "revision1" |} ].

Definition test_annotate_revision2 : list annotate_line :=
  test_annotate_revision1 ++
  [ {| lineno := 5; targetline := 5; node := "revision2" |};
    {| lineno := 6; targetline := 6; node := "revision2" |};
    {| lineno := 7; targetline := 7; node := "revision2" |};
    {| lineno := 8; targetline := 8; node := "revision2" |};
    {| lineno := 9; targetline := 9; node := "revision2" |};
    {| lineno := 10; targetline := 10; node := "revision2" |} ].

Definition test_get_annotate (rev path : string)
    : option (list annotate_line) :=
  if decide (path = "file") then
    if decide (rev = "revision1") then Some test_annotate_revision1
    else if decide (rev = "revision2") then Some test_annotate_revision2
    else None
  else None.

Definition test_report : covdir :=
  Covdir (Some {[ "file" :=
    Covdir None (Some [-1; 1; 1; 0; 0; 0; 0; 0; 0; 0; 0]) ]}) None.

Definition test_stack : list changeset :=
  [ {| cs_node := "revision1";
       desc :=
         "Commit [(b'A', b'file')]Differential Revision: https://phabricator.services.mozilla.com/D1";
       files := ["file"] |};
    {| cs_node := "revision2";
       desc :=
         "Commit [(b'M', b'file')]Differential Revision: https://phabricator.services.mozilla.com/D2";
       files := ["file"] |} ].

(** ** [parse_revision_url] *)

(** The expression before its first group, and its first group up to the
    digits. *)
Definition PHABRICATOR_REVISION_HEAD : list pat :=
  lits "Differential Revision: ".

Definition PHABRICATOR_REVISION_URL : list pat :=
  lits "https://phabricator" ++ [Dot] ++
  lits "services" ++ [Dot] ++ lits "mozilla" ++ [Dot] ++ lits "com/D".

(** [match_prefix], keeping the text that was matched. *)
Fixpoint match_text (ps : list pat) (s : string) : option (string * string) :=
  match ps with
  | [] => Some (EmptyString, s)
  | p :: ps' =>
      match s with
      | EmptyString => None
      | String c s' =>
          if pat_matches p c then
            match match_text ps' s' with
            | Some (text, rest) => Some (String c text, rest)
            | None => None
            end
          else None
      end
  end.

(** The text of the longest run of [[0-9]] at the start of [s]. *)
Fixpoint take_digit_chars (s : string) : string :=
  match s with
  | EmptyString => EmptyString
  | String c s' =>
      match digit_value c with
      | Some _ => String c (take_digit_chars s')
      | None => EmptyString
      end
  end.

(** A match of the whole expression at the start of [s]: group 1. *)
Definition match_here_url (s : string) : option string :=
  match match_prefix PHABRICATOR_REVISION_HEAD s with
  | Some rest =>
      match match_text PHABRICATOR_REVISION_URL rest with
      | Some (url, rest') =>
          match take_digit_chars rest' with
          | EmptyString => None
          | digits => Some (url +:+ digits)
          end
      | None => None
      end
  | None => None
  end.

Fixpoint search_url (s : string) : option string :=
  match match_here_url s with
  | Some url => Some url
  | None =>
      match s with
      | EmptyString => None
      | String _ s' => search_url s'
      end
  end.

Definition parse_revision_url (desc : string) : option string :=
  match search_url desc with
  | None => None
  | Some group1 => Some group1
  end.

(** ** [is_third_party] *)

(** [s.startswith(prefix)]. *)
Definition startswith (s prefix : string) : bool := String.prefix prefix s.

(** The loop over [self.third_parties], the lines of the exclusion list. *)
Fixpoint is_third_party (third_parties : list string) (path : string)
    : bool :=
  match third_parties with
  | [] => false
  | third_party :: third_parties' =>
      if startswith path third_party then true
      else is_third_party third_parties' path
  end.

(** ** [is_supported_extension] *)

(** [s.rfind(c)]: the index of the last [c] in [s], [-1] without one. The
    accumulator [last] is the answer for the characters before index
    [i]. *)
Fixpoint rfind_from (c : ascii) (s : string) (i last : Z) : Z :=
  match s with
  | EmptyString => last
  | String a s' => rfind_from c s' (i + 1) (if decide (a = c) then i else last)
  end.

Definition rfind (c : ascii) (s : string) : Z := rfind_from c s 0 (-1).

(** [p[:i]] and [p[i:]] for an index within [0 .. len(p)]. *)
Definition py_take (i : Z) (p : string) : string :=
  String.substring 0 (Z.to_nat i) p.

Definition py_drop (i : Z) (p : string) : string :=
  String.substring (Z.to_nat i) (String.length p - Z.to_nat i) p.

(** The loop of [os.path.splitext] that skips the leading dots of the
    file name: [n] turns are left before [filenameIndex] reaches
    [dotIndex]. *)
Fixpoint skip_leading_dots (n : nat) (p : string) (filenameIndex dotIndex : Z)
    : string * string :=
  match n with
  | O => (p, EmptyString)
  | S n' =>
      if decide (String.get (Z.to_nat filenameIndex) p = Some "."%char) then
        skip_leading_dots n' p (filenameIndex + 1) dotIndex
      else (py_take dotIndex p, py_drop dotIndex p)
  end.

(** [os.path.splitext(p)] on a POSIX system. *)
Definition splitext (p : string) : string * string :=
  let sepIndex := rfind "/" p in
  let dotIndex := rfind "." p in
  if dotIndex >? sepIndex then
    let filenameIndex := sepIndex + 1 in
    skip_leading_dots (Z.to_nat (dotIndex - filenameIndex)) p
      filenameIndex dotIndex
  else (p, EmptyString).

Section extensions.

(** [COVERAGE_EXTENSIONS] of [code_coverage_tools], which is not part of
    these sources. *)
Variable COVERAGE_EXTENSIONS : list string.

Definition is_supported_extension (path : string) : bool :=
  let ext := (splitext path).2 in
  match ext with
  | EmptyString => false
  | String _ ext1 => bool_decide (ext1 ∈ COVERAGE_EXTENSIONS)
  end.

End extensions.

(** ** Decimal digits *)



Definition is_digit (d : Z) : Prop := 0 ≤ d ≤ 9.


(** * Properties *)

(** Decide a closed proposition by evaluation. *)
Ltac by_evaluation :=
  lazymatch goal with
  | |- ?P =>
      let d := constr:(_ : Decision P) in
      apply (@bool_decide_unpack P d); vm_compute; exact I
  end.

(** ** Strings as lists of characters *)

Lemma list_ascii_app (s t : string) :
  String.list_ascii_of_string (s +:+ t) =
  String.list_ascii_of_string s ++ String.list_ascii_of_string t.
Proof. induction s as [|c s IH]; simpl; [done | by rewrite IH]. Qed.

Lemma string_length_list (s : string) :
  String.length s = length (String.list_ascii_of_string s).
Proof. induction s as [|c s IH]; simpl; [done | by rewrite IH]. Qed.

Lemma string_get_list (s : string) (i : nat) :
  String.get i s = String.list_ascii_of_string s !! i.
Proof.
  revert i. induction s as [|c s IH]; intros [|i]; simpl; done.
Qed.

(** ** Loops *)

Lemma for_each_app {S A} (body : S → A → result S) (l1 l2 : list A) (s : S) :
  for_each body (l1 ++ l2) s = (s' ← for_each body l1 s; for_each body l2 s').
Proof.
  revert s. induction l1 as [|x l1 IH]; intros s; simpl; [done|].
  destruct (body s x) as [s'|e]; simpl; [apply IH | done].
Qed.

Lemma for_each_raises {S A} (body : S → A → result S) (l : list A) (x : A)
    (s : S) :
  x ∈ l → (∀ s', raises (body s' x)) → raises (for_each body l s).
Proof.
  intros Hx Hraise. revert s.
  induction l as [|y l IH]; intros s; [by apply elem_of_nil in Hx|].
  simpl. destruct (body s y) as [s'|e] eqn:Hy; simpl; [|done].
  apply elem_of_cons in Hx as [->|Hx]; [|by apply IH].
  specialize (Hraise s). by rewrite Hy in Hraise.
Qed.

(** ** [_apply_coverage_map] *)

(** Each turn of the loop appends the symbol of its record. *)
Lemma apply_body_symbol (m : gmap (string * Z) Z) (acc : string)
    (p : annotate_line) :
  apply_body m acc p =
  acc +:+ String (spec_symbol (m !! line_key p)) EmptyString.
Proof.
  unfold apply_body, line_key, spec_symbol, spec_symbol_of_raw.
  destruct (m !! (node p, targetline p)) as [count|]; [|done].
  destruct (Z.eqb_spec count (-1)) as [->|Hne]; [done|].
  rewrite decide_False by done.
  destruct (Z.gtb_spec count 0); [rewrite decide_True by lia; done|].
  by rewrite decide_False by lia.
Qed.

Lemma apply_map_snoc (m : gmap (string * Z) Z) (annotate : list annotate_line)
    (p : annotate_line) :
  _apply_coverage_map (annotate ++ [p]) m =
  _apply_coverage_map annotate m +:+
    String (spec_symbol (m !! line_key p)) EmptyString.
Proof.
  unfold _apply_coverage_map. rewrite fold_left_app. simpl.
  apply apply_body_symbol.
Qed.

Lemma apply_map_chars (m : gmap (string * Z) Z)
    (annotate : list annotate_line) :
  String.list_ascii_of_string (_apply_coverage_map annotate m) =
  (λ p, spec_symbol (m !! line_key p)) <$> annotate.
Proof.
  induction annotate as [|p annotate IH] using rev_ind; [done|].
  rewrite apply_map_snoc, list_ascii_app, IH, fmap_app. done.
Qed.

Lemma apply_map_get (m : gmap (string * Z) Z) (annotate : list annotate_line)
    (i : nat) (p : annotate_line) :
  annotate !! i = Some p →
  String.get i (_apply_coverage_map annotate m) =
  Some (spec_symbol (m !! line_key p)).
Proof.
  intros Hp. rewrite string_get_list, apply_map_chars, list_lookup_fmap.
  by rewrite Hp.
Qed.

Lemma apply_map_length (m : gmap (string * Z) Z)
    (annotate : list annotate_line) :
  String.length (_apply_coverage_map annotate m) = length annotate.
Proof. by rewrite string_length_list, apply_map_chars, length_fmap. Qed.

(** ** [_build_coverage_map] *)

(** A subscript that is not negative reads the list at that position. *)
Lemma py_index_nonneg {A} (l : list A) (i : Z) :
  0 ≤ i →
  py_index l i =
  match l !! Z.to_nat i with
  | Some x => Ok x
  | None => Raise IndexError
  end.
Proof.
  intros Hi. unfold py_index.
  destruct (Z.ltb_spec i 0); [lia|].
  destruct (Z.leb_spec 0 i); [|lia]. simpl.
  destruct (Z.ltb_spec i (Z.of_nat (length l))); [done|].
  by rewrite lookup_ge_None_2 by lia.
Qed.

Lemma build_body_one_based (raw : list Z) (m : gmap (string * Z) Z)
    (p : annotate_line) :
  1 ≤ lineno p → build_body raw m p = Ok (spec_build_step raw m p).
Proof.
  intros Hp. unfold build_body, spec_build_step, within_bounds, line_key.
  destruct (Z.ltb_spec (lineno p - 1) (Z.of_nat (length raw))) as [Hlt|Hge].
  - rewrite decide_True by lia. rewrite py_index_nonneg by lia.
    destruct (lookup_lt_is_Some_2 raw (Z.to_nat (lineno p - 1))) as [c Hc];
      [lia|].
    by rewrite Hc.
  - by rewrite decide_False by lia.
Qed.

Lemma build_loop_one_based (raw : list Z) (annotate : list annotate_line)
    (m : gmap (string * Z) Z) :
  one_based annotate →
  for_each (build_body raw) annotate m =
  Ok (fold_left (spec_build_step raw) annotate m).
Proof.
  intros Hall. revert m.
  induction Hall as [|p annotate Hp _ IH]; intros m; simpl; [done|].
  rewrite build_body_one_based by done. simpl. apply IH.
Qed.

Lemma build_map_one_based (annotate : list annotate_line) (raw : list Z) :
  one_based annotate →
  _build_coverage_map annotate raw = Ok (spec_build_map annotate raw).
Proof. apply build_loop_one_based. Qed.



(** ** The remapper *)

Lemma spec_symbol_classifies (entry : option Z) :
  spec_classifies entry (spec_symbol entry).
Proof.
  unfold spec_classifies, spec_symbol, spec_symbol_of_raw.
  split_and!.
  - by intros ->.
  - by intros ->.
  - intros count -> Hpos. rewrite decide_False by lia.
    by rewrite decide_True by lia.
  - intros count -> Hle Hne. rewrite decide_False by done.
    by rewrite decide_False by lia.
Qed.

(** C1. [_apply_coverage_map] starts from the empty string and handles
    the records in their order, appending one symbol per record: [X] when
    the key of the record is absent from the map, [N] when its value is
    [-1], [C] when its value is positive and [U] for any other value. The
    symbol at position [i] of the output is therefore that of record [i],
    and with an empty map every symbol is [X]. *)
Theorem apply_map_classifies (m : gmap (string * Z) Z)
    (annotate : list annotate_line) :
  _apply_coverage_map [] m = "" ∧
  (∀ p, ∃ c,
      _apply_coverage_map (annotate ++ [p]) m =
        _apply_coverage_map annotate m +:+ String c EmptyString ∧
      spec_classifies (m !! line_key p) c) ∧
  (∀ i p, annotate !! i = Some p →
      ∃ c, String.get i (_apply_coverage_map annotate m) = Some c ∧
           spec_classifies (m !! line_key p) c) ∧
  (∀ i p, annotate !! i = Some p →
      String.get i (_apply_coverage_map annotate ∅) = Some "X"%char).
Proof.
  split_and!.
  - done.
  - intros p. eexists. split; [apply apply_map_snoc|].
    apply spec_symbol_classifies.
  - intros i p Hp. eexists. split; [by apply apply_map_get|].
    apply spec_symbol_classifies.
  - intros i p Hp. rewrite (apply_map_get _ _ _ _ Hp).
    by rewrite lookup_empty.
Qed.

(** C2. The classification string is as long as the annotate data it was
    computed from, whatever the map. *)
Theorem classification_length (m : gmap (string * Z) Z)
    (annotate : list annotate_line) :
  py_str_len (_apply_coverage_map annotate m) = Z.of_nat (length annotate).
Proof. unfold py_str_len. by rewrite apply_map_length. Qed.

(** Whatever the line numbers, a turn of the loop of
    [_build_coverage_map] changes the entry of the key of its record
    only, and sets it to the raw count of a line within bounds. *)
Lemma build_body_other (raw : list Z) (m m' : gmap (string * Z) Z)
    (q : annotate_line) (k : string * Z) :
  build_body raw m q = Ok m' → k ≠ line_key q → m' !! k = m !! k.
Proof.
  unfold build_body, line_key. intros Hbody Hk.
  destruct (_ <? _); [|by injection Hbody as <-].
  destruct (py_index raw (lineno q - 1)) as [count|e]; [|done].
  simpl in Hbody. injection Hbody as <-. by rewrite lookup_insert_ne.
Qed.

Lemma build_body_within (raw : list Z) (m m' : gmap (string * Z) Z)
    (p : annotate_line) (count : Z) :
  within_bounds (length raw) (lineno p - 1) →
  raw !! Z.to_nat (lineno p - 1) = Some count →
  build_body raw m p = Ok m' → m' !! line_key p = Some count.
Proof.
  unfold build_body, line_key, within_bounds. intros Hin Hcount.
  destruct (Z.ltb_spec (lineno p - 1) (Z.of_nat (length raw))); [|lia].
  rewrite py_index_nonneg by lia. rewrite Hcount. simpl.
  intros [= <-]. apply lookup_insert_eq.
Qed.

Lemma build_loop_other (raw : list Z) (annotate : list annotate_line)
    (m m' : gmap (string * Z) Z) (k : string * Z) :
  k ∉ line_key <$> annotate →
  for_each (build_body raw) annotate m = Ok m' → m' !! k = m !! k.
Proof.
  revert m. induction annotate as [|q annotate IH]; intros m Hk; simpl.
  - by intros [= <-].
  - rewrite fmap_cons in Hk. apply not_elem_of_cons in Hk as [Hq Hk].
    destruct (build_body raw m q) as [m1|e] eqn:Hbody; [|done]. simpl.
    intros Hloop. rewrite (IH _ Hk Hloop). by eapply build_body_other.
Qed.

Lemma build_loop_nodup (raw : list Z) (annotate : list annotate_line)
    (m m' : gmap (string * Z) Z) (p : annotate_line) (count : Z) :
  NoDup (line_key <$> annotate) →
  p ∈ annotate →
  within_bounds (length raw) (lineno p - 1) →
  raw !! Z.to_nat (lineno p - 1) = Some count →
  for_each (build_body raw) annotate m = Ok m' →
  m' !! line_key p = Some count.
Proof.
  intros Hnd Hp Hin Hcount. revert m Hnd Hp.
  induction annotate as [|q annotate IH]; intros m Hnd Hp;
    [by apply elem_of_nil in Hp|].
  rewrite fmap_cons in Hnd. apply NoDup_cons in Hnd as [Hq Hnd]. simpl.
  destruct (build_body raw m q) as [m1|e] eqn:Hbody; [|done]. simpl.
  intros Hloop. apply elem_of_cons in Hp as [<-|Hp]; [|by eapply IH].
  rewrite (build_loop_other _ _ _ _ _ Hq Hloop).
  by eapply build_body_within.
Qed.

(** C3. When the keys of the annotate data are pairwise distinct,
    building the map from the data and applying it to the same data
    classifies every line whose line number is within the bounds of the
    raw coverage as the raw count of that line dictates, and never as
    [X]. The map is there to apply whenever the line numbers start from
    1, as those of annotate data do. *)
Theorem identity_mapping (annotate : list annotate_line) (raw : list Z) :
  NoDup (line_key <$> annotate) →
  (one_based annotate → ∃ m, _build_coverage_map annotate raw = Ok m) ∧
  ∀ m, _build_coverage_map annotate raw = Ok m →
    ∀ i p count,
      annotate !! i = Some p →
      within_bounds (length raw) (lineno p - 1) →
      raw !! Z.to_nat (lineno p - 1) = Some count →
      String.get i (_apply_coverage_map annotate m) =
        Some (spec_symbol_of_raw count) ∧
      spec_symbol_of_raw count ≠ "X"%char.
Proof.
  intros Hnd. split.
  { intros Hone. eexists. by apply build_map_one_based. }
  intros m Hbuild i p count Hp Hin Hcount. split.
  - rewrite (apply_map_get _ _ _ _ Hp).
    assert (p ∈ annotate) as Hmem by (by eapply list_elem_of_lookup_2).
    by rewrite (build_loop_nodup raw annotate ∅ m p count).
  - unfold spec_symbol_of_raw. repeat case_decide; done.
Qed.

Lemma identity_mapping_witness :
  String.get 2
    (_apply_coverage_map
       [ {| lineno := 1; targetline := 7; node := "r0" |};
         {| lineno := 4; targetline := 1; node := "r1" |};
         {| lineno := 2; targetline := 8; node := "r0" |} ]
       {[ ("r0", 7) := -1; ("r0", 8) := 4 ]}) =
  Some (spec_symbol_of_raw 4).
Proof.
  destruct (identity_mapping
              [ {| lineno := 1; targetline := 7; node := "r0" |};
                {| lineno := 4; targetline := 1; node := "r1" |};
                {| lineno := 2; targetline := 8; node := "r0" |} ] [-1; 4])
    as [_ Hlines].
  - by_evaluation.
  - refine (proj1 (Hlines {[ ("r0", 7) := -1; ("r0", 8) := 4 ]} _ 2%nat
                     {| lineno := 2; targetline := 8; node := "r0" |} 4
                     _ _ _)).
    + vm_compute. reflexivity.
    + reflexivity.
    + by_evaluation.
    + reflexivity.
Defined.




(** On a coverage record that is not empty the same record is not
    dropped: the subscript [-1] reads the last count. *)
Lemma build_map_line_zero_wraps :
  _build_coverage_map
    [ {| lineno := 0; targetline := 1; node := "r0" |} ] [5; 7] =
  Ok {[ ("r0", 1) := 7 ]}.
Proof. reflexivity. Qed.

(** C5. On the worked example the classification is [NCXCU], the only
    added line is the one at index 2, and [generate] records one added
    line, one unknown line and no covered line for the file. *)
Theorem worked_example :
  (∃ m, _build_coverage_map example_build_annotate example_raw = Ok m ∧
        _apply_coverage_map example_target_annotate m = "NCXCU") ∧
  added_lines "r1" example_target_annotate = [2] ∧
  generate "r0" example_get_annotate example_report example_changesets =
  Ok {[ "r1" :=
        {| revision_id := 1;
           paths := {[ "file" :=
             {| lines_added := 1;
                lines_unknown := 1;
                lines_covered := 0;
                coverage_data := "NCXCU" |} ]} |} ]}.
Proof.
  split_and!.
  - eexists. split; [reflexivity|]. vm_compute. reflexivity.
  - vm_compute. reflexivity.
  - vm_compute. reflexivity.
Qed.

(** ** The statistics of a path *)

Lemma added_lines_spec (cs : string) (annotate : list annotate_line) :
  added_lines cs annotate = spec_added_lines cs annotate.
Proof.
  unfold added_lines, spec_added_lines.
  induction annotate as [|p annotate IH]; [done|].
  rewrite filter_cons, bind_cons, <- IH.
  destruct (decide (node p = cs)); done.
Qed.

Lemma added_lines_nonneg (cs : string) (annotate : list annotate_line) :
  one_based annotate → Forall (λ i, 0 ≤ i) (added_lines cs annotate).
Proof.
  intros Hone. unfold added_lines.
  induction Hone as [|p annotate Hp _ IH]; [constructor|].
  rewrite filter_cons. destruct (decide (node p = cs)); [|done].
  rewrite fmap_cons. constructor; [lia | done].
Qed.

Lemma count_body_spec (cls : string) (test : ascii → bool) (total line : Z) :
  0 ≤ line →
  count_body cls test total line =
  Ok (total + (if spec_symbol_at cls test line then 1 else 0)).
Proof.
  intros Hline. unfold count_body, spec_symbol_at, py_str_len, within_bounds.
  destruct (Z.ltb_spec line (Z.of_nat (String.length cls))) as [Hlt|Hge].
  - rewrite bool_decide_eq_true_2 by lia. simpl.
    unfold py_str_index. rewrite py_index_nonneg by done.
    rewrite string_get_list.
    destruct (lookup_lt_is_Some_2 (String.list_ascii_of_string cls)
                (Z.to_nat line)) as [c Hc].
    { rewrite <- string_length_list. lia. }
    by rewrite Hc.
  - rewrite bool_decide_eq_false_2 by lia. simpl. by rewrite Z.add_0_r.
Qed.

Lemma count_loop_spec (cls : string) (test : ascii → bool) (lines : list Z)
    (total : Z) :
  Forall (λ i, 0 ≤ i) lines →
  for_each (count_body cls test) lines total =
  Ok (total + spec_count cls test lines).
Proof.
  intros Hall. revert total. unfold spec_count.
  induction Hall as [|line lines Hline _ IH]; intros total; simpl.
  - by rewrite Z.add_0_r.
  - rewrite count_body_spec by done. simpl. rewrite IH.
    destruct (spec_symbol_at cls test line) eqn:Hat.
    + rewrite filter_cons_True by done. simpl. f_equal. lia.
    + rewrite filter_cons_False by (by rewrite Hat). f_equal. lia.
Qed.

Lemma count_lines_spec (cls : string) (test : ascii → bool) (lines : list Z) :
  Forall (λ i, 0 ≤ i) lines →
  count_lines cls test lines = Ok (spec_count cls test lines).
Proof. intros Hall. unfold count_lines. by rewrite count_loop_spec. Qed.

Lemma added_lines_positions (cs : string) (annotate : list annotate_line) :
  numbered_in_order annotate →
  ∀ line, line ∈ added_lines cs annotate ↔
    ∃ i p, annotate !! i = Some p ∧ node p = cs ∧ line = Z.of_nat i.
Proof.
  intros Horder line. unfold added_lines.
  rewrite list_elem_of_fmap. split.
  - intros (p & -> & Hp). apply list_elem_of_filter in Hp as [Hnode Hp].
    apply list_elem_of_lookup in Hp as [i Hi].
    exists i, p. split_and!; [done..|]. rewrite (Horder i p Hi). lia.
  - intros (i & p & Hi & Hnode & ->). exists p. split.
    + rewrite (Horder i p Hi). lia.
    + apply list_elem_of_filter. split; [done|].
      by eapply list_elem_of_lookup_2.
Qed.

Lemma path_stats_spec (cs : string) (annotate : list annotate_line)
    (coverage_map : gmap (string * Z) Z) :
  one_based annotate →
  path_stats cs annotate coverage_map =
  Ok {| lines_added :=
          spec_count (_apply_coverage_map annotate coverage_map) is_not_N
            (spec_added_lines cs annotate);
        lines_unknown :=
          spec_count (_apply_coverage_map annotate coverage_map) is_X
            (spec_added_lines cs annotate);
        lines_covered :=
          spec_count (_apply_coverage_map annotate coverage_map) is_C
            (spec_added_lines cs annotate);
        coverage_data := _apply_coverage_map annotate coverage_map |}.
Proof.
  intros Hone. unfold path_stats.
  pose proof (added_lines_nonneg cs annotate Hone) as Hnn.
  rewrite !count_lines_spec by done. simpl.
  by rewrite added_lines_spec.
Qed.

(** ** [generate] *)

(** A turn of a loop that leaves the state as it is can be removed. *)
Lemma for_each_skip {S A} (body : S → A → result S) (l1 l2 : list A) (x : A)
    (s : S) :
  (∀ s', body s' x = Ok s') →
  for_each body (l1 ++ x :: l2) s = for_each body (l1 ++ l2) s.
Proof.
  intros Hskip. rewrite !for_each_app.
  destruct (for_each body l1 s) as [s'|e]; simpl; [|done].
  by rewrite Hskip.
Qed.

Lemma for_each_replace {S A} (body : S → A → result S) (l1 l2 : list A)
    (x y : A) (s : S) :
  (∀ s', body s' x = body s' y) →
  for_each body (l1 ++ x :: l2) s = for_each body (l1 ++ y :: l2) s.
Proof.
  intros Hsame. rewrite !for_each_app.
  destruct (for_each body l1 s) as [s'|e]; simpl; [|done].
  by rewrite Hsame.
Qed.

Section generate_properties.

Variable revision : string.
Variable get_annotate : string → string → option (list annotate_line).
Variable report : covdir.

Local Abbreviation process_path := (process_path revision get_annotate report).
Local Abbreviation path_body := (path_body revision get_annotate report).
Local Abbreviation changeset_body := (changeset_body revision get_annotate report).
Local Abbreviation generate := (generate revision get_annotate report).

Lemma path_body_skip (cs path : string)
    (results : gmap string revision_result) :
  process_path cs path = Ok None → path_body cs results path = Ok results.
Proof. intros Hskip. unfold path_body. by rewrite Hskip. Qed.

Lemma process_path_not_found (cs path : string) :
  _find_coverage report path = Ok None → process_path cs path = Ok None.
Proof.
  intros Hfind. unfold process_path. by rewrite Hfind.
Qed.

Lemma process_path_target_absent (cs path : string)
    (coverage_record : list Z) (build_annotate : list annotate_line)
    (coverage_map : gmap (string * Z) Z) :
  _find_coverage report path = Ok (Some coverage_record) →
  get_annotate revision path = Some build_annotate →
  _build_coverage_map build_annotate coverage_record = Ok coverage_map →
  get_annotate cs path = None →
  process_path cs path = Ok None.
Proof.
  intros Hfind Hbuild Hmap Htarget. unfold process_path.
  rewrite Hfind. simpl. rewrite Hbuild, Hmap. simpl. by rewrite Htarget.
Qed.

Lemma process_path_build_absent (cs path : string)
    (coverage_record : list Z) :
  _find_coverage report path = Ok (Some coverage_record) →
  get_annotate revision path = None →
  process_path cs path = Raise AssertionError.
Proof.
  intros Hfind Hbuild. unfold process_path.
  rewrite Hfind. simpl. by rewrite Hbuild.
Qed.

(** C6. For a path that reaches the statistics (coverage found, annotate
    data present at both changesets, line numbers from 1), the added
    lines are the line numbers less one of the records introduced by the
    changeset, which are the positions of these records when the data
    lists the lines in order. The three counts are taken over the added
    lines within the bounds of the classification: those not classified
    [N], those classified [X] and those classified [C]. The result is
    stored under the changeset and the path. *)
Theorem added_line_statistics (cs path : string) (coverage_record : list Z)
    (build_annotate annotate : list annotate_line)
    (coverage_map : gmap (string * Z) Z) :
  _find_coverage report path = Ok (Some coverage_record) →
  get_annotate revision path = Some build_annotate →
  _build_coverage_map build_annotate coverage_record = Ok coverage_map →
  get_annotate cs path = Some annotate →
  one_based annotate →
  let cls := _apply_coverage_map annotate coverage_map in
  let added := spec_added_lines cs annotate in
  let stats :=
    {| lines_added := spec_count cls is_not_N added;
       lines_unknown := spec_count cls is_X added;
       lines_covered := spec_count cls is_C added;
       coverage_data := cls |} in
  added_lines cs annotate = added ∧
  (numbered_in_order annotate →
   ∀ line, line ∈ added ↔
     ∃ i p, annotate !! i = Some p ∧ node p = cs ∧ line = Z.of_nat i) ∧
  process_path cs path = Ok (Some stats) ∧
  ∀ results entry,
    results !! cs = Some entry →
    path_body cs results path =
    Ok (<[cs := {| revision_id := revision_id entry;
                   paths := <[path := stats]> (paths entry) |}]> results).
Proof.
  intros Hfind Hbuild Hmap Htarget Hone cls added stats.
  assert (process_path cs path = Ok (Some stats)) as Hprocess.
  { unfold process_path. rewrite Hfind. simpl.
    rewrite Hbuild, Hmap. simpl. rewrite Htarget.
    by rewrite path_stats_spec by done. }
  split_and!; [apply added_lines_spec | | done |].
  { intros Horder line. unfold added. rewrite <- added_lines_spec.
    by apply added_lines_positions. }
  intros results entry Hentry. unfold path_body.
  rewrite Hprocess. simpl. unfold store_path. by rewrite Hentry.
Qed.

(** C7. When some path of some changeset with a revision id has a
    coverage record but no annotate data at the build changeset, the
    assertion fails on that path and [generate] raises: it returns no
    results. *)
Theorem missing_build_annotate_raises (changesets : list changeset)
    (c : changeset) (rev_id : Z) (path : string)
    (coverage_record : list Z) :
  c ∈ changesets →
  parse_revision_id (desc c) = Some rev_id →
  path ∈ files c →
  _find_coverage report path = Ok (Some coverage_record) →
  get_annotate revision path = None →
  (∀ results, path_body (cs_node c) results path = Raise AssertionError) ∧
  raises (generate changesets) ∧
  ∀ results, generate changesets ≠ Ok results.
Proof.
  intros Hc Hid Hpath Hfind Hbuild.
  assert (∀ results,
    path_body (cs_node c) results path = Raise AssertionError) as Hassert.
  { intros results. unfold path_body.
    by rewrite (process_path_build_absent _ _ _ Hfind Hbuild). }
  assert (raises (generate changesets)) as Hraises.
  { unfold generate. apply (for_each_raises _ _ c); [done|].
    intros results. unfold changeset_body. rewrite Hid.
    apply (for_each_raises _ _ path); [done|].
    intros results'. by rewrite Hassert. }
  split_and!; [done..|].
  intros results Hok. by rewrite Hok in Hraises.
Qed.

(** C8. The three expected absences skip their unit of work and nothing
    else: [generate] returns what it returns on the input without the
    unit. A changeset without a revision id is skipped whole; a path
    that is not found in the report is skipped; a path without annotate
    data at the changeset (the coverage record and the map of the build
    being there) is skipped. *)
Theorem expected_absence_skips :
  (∀ before c after,
      parse_revision_id (desc c) = None →
      (∀ results, changeset_body results c = Ok results) ∧
      generate (before ++ c :: after) = generate (before ++ after)) ∧
  (∀ before c after fbefore path fafter,
      files c = fbefore ++ path :: fafter →
      _find_coverage report path = Ok None →
      (∀ results, path_body (cs_node c) results path = Ok results) ∧
      generate (before ++ c :: after) =
      generate (before ++
        {| cs_node := cs_node c; desc := desc c;
           files := fbefore ++ fafter |} :: after)) ∧
  (∀ before c after fbefore path fafter coverage_record build_annotate
     coverage_map,
      files c = fbefore ++ path :: fafter →
      _find_coverage report path = Ok (Some coverage_record) →
      get_annotate revision path = Some build_annotate →
      _build_coverage_map build_annotate coverage_record =
        Ok coverage_map →
      get_annotate (cs_node c) path = None →
      (∀ results, path_body (cs_node c) results path = Ok results) ∧
      generate (before ++ c :: after) =
      generate (before ++
        {| cs_node := cs_node c; desc := desc c;
           files := fbefore ++ fafter |} :: after)).
Proof.
  assert (∀ before c after fbefore path fafter,
    files c = fbefore ++ path :: fafter →
    process_path (cs_node c) path = Ok None →
    (∀ results, path_body (cs_node c) results path = Ok results) ∧
    generate (before ++ c :: after) =
    generate (before ++
      {| cs_node := cs_node c; desc := desc c;
         files := fbefore ++ fafter |} :: after)) as Hpath.
  { intros before c after fbefore path fafter Hfiles Hskip.
    split; [intros results; by apply path_body_skip|].
    unfold generate. apply for_each_replace.
    intros results. unfold changeset_body. simpl.
    destruct (parse_revision_id (desc c)); [|done].
    rewrite Hfiles. apply for_each_skip.
    intros results'. by apply path_body_skip. }
  split_and!.
  - intros before c after Hid.
    assert (∀ results, changeset_body results c = Ok results) as Hskip.
    { intros results. unfold changeset_body. by rewrite Hid. }
    split; [done|]. unfold generate. by apply for_each_skip.
  - intros before c after fbefore path fafter Hfiles Hfind.
    apply Hpath; [done|]. by apply process_path_not_found.
  - intros before c after fbefore path fafter coverage_record
      build_annotate coverage_map Hfiles Hfind Hbuild Hmap Htarget.
    apply Hpath; [done|]. by eapply process_path_target_absent.
Qed.

End generate_properties.

(** ** The entries of the results *)

Section generate_entries.

Variable revision : string.
Variable get_annotate : string → string → option (list annotate_line).
Variable report : covdir.

Local Abbreviation process_path :=
  (process_path revision get_annotate report).
Local Abbreviation path_body := (path_body revision get_annotate report).
Local Abbreviation changeset_body :=
  (changeset_body revision get_annotate report).
Local Abbreviation generate := (generate revision get_annotate report).
Local Abbreviation all_skipped := (all_skipped revision get_annotate report).

(** One path changes the entry of its changeset only, and keeps the
    revision id of that entry. *)
Lemma path_body_entry (cs path : string)
    (r0 r1 : gmap string revision_result) :
  path_body cs r0 path = Ok r1 →
  (∀ k, k ≠ cs → r1 !! k = r0 !! k) ∧
  ∀ e0, r0 !! cs = Some e0 →
    ∃ e1, r1 !! cs = Some e1 ∧ revision_id e1 = revision_id e0 ∧
          (process_path cs path = Ok None → paths e1 = paths e0).
Proof.
  unfold path_body.
  destruct (process_path cs path) as [[stats|]|e]; simpl; [| |done].
  - unfold store_path. destruct (r0 !! cs) as [entry|] eqn:Hentry; [|done].
    simpl. intros [= <-]. split.
    + intros k Hk. by rewrite lookup_insert_ne.
    + intros e0 [= <-]. eexists. rewrite lookup_insert_eq.
      split_and!; [done..|]. intros [=].
  - intros [= <-]. split; [done|]. intros e0 He0. by exists e0.
Qed.

Lemma path_loop_entry (cs : string) (fs : list string)
    (r0 r : gmap string revision_result) :
  for_each (path_body cs) fs r0 = Ok r →
  (∀ k, k ≠ cs → r !! k = r0 !! k) ∧
  ∀ e0, r0 !! cs = Some e0 →
    ∃ e, r !! cs = Some e ∧ revision_id e = revision_id e0 ∧
         ((∀ path, path ∈ fs → process_path cs path = Ok None) →
          paths e = paths e0).
Proof.
  revert r0. induction fs as [|path fs IH]; intros r0; simpl.
  - intros [= <-]. split; [done|]. intros e0 He0. by exists e0.
  - destruct (path_body cs r0 path) as [r1|e] eqn:Hbody; [|done]. simpl.
    intros Hloop. apply path_body_entry in Hbody as [Hother1 Hentry1].
    apply IH in Hloop as [Hother Hentry]. split.
    + intros k Hk. rewrite Hother by done. by apply Hother1.
    + intros e0 He0.
      destruct (Hentry1 e0 He0) as (e1 & He1 & Hid1 & Hpaths1).
      destruct (Hentry e1 He1) as (e2 & He2 & Hid2 & Hpaths2).
      exists e2. split_and!; [done|congruence|].
      intros Hskip. rewrite Hpaths2, Hpaths1; [done|..].
      * apply Hskip. by left.
      * intros p Hp. apply Hskip. by right.
Qed.

Lemma changeset_body_other (c : changeset) (n : string)
    (r0 r1 : gmap string revision_result) :
  changeset_body r0 c = Ok r1 → cs_node c ≠ n → r1 !! n = r0 !! n.
Proof.
  unfold changeset_body. destruct (parse_revision_id (desc c)) as [id|].
  - intros Hloop Hne. apply path_loop_entry in Hloop as [Hother _].
    rewrite Hother by done. by rewrite lookup_insert_ne.
  - by intros [= <-].
Qed.

Lemma changeset_body_entry (c : changeset) (rev_id : Z)
    (r0 r1 : gmap string revision_result) :
  changeset_body r0 c = Ok r1 →
  parse_revision_id (desc c) = Some rev_id →
  ∃ e, r1 !! cs_node c = Some e ∧ revision_id e = rev_id ∧
       (all_skipped c → paths e = ∅).
Proof.
  unfold changeset_body. intros Hloop Hid. rewrite Hid in Hloop.
  apply path_loop_entry in Hloop as [_ Hentry].
  destruct (Hentry {| revision_id := rev_id; paths := ∅ |})
    as (e & He & Hrev & Hpaths); [apply lookup_insert_eq|].
  by exists e.
Qed.

(** An entry, once in the results, stays there. *)
Lemma changeset_body_keeps (c : changeset) (n : string)
    (r0 r1 : gmap string revision_result) :
  changeset_body r0 c = Ok r1 → is_Some (r0 !! n) → is_Some (r1 !! n).
Proof.
  intros Hbody Hn. destruct (decide (cs_node c = n)) as [<-|Hne].
  - destruct (parse_revision_id (desc c)) as [id|] eqn:Hid.
    + destruct (changeset_body_entry _ _ _ _ Hbody Hid) as (e & He & _).
      by exists e.
    + unfold changeset_body in Hbody. rewrite Hid in Hbody.
      by injection Hbody as <-.
  - by rewrite (changeset_body_other _ _ _ _ Hbody Hne).
Qed.

Lemma changeset_loop_keeps (l : list changeset) (n : string)
    (r0 r : gmap string revision_result) :
  for_each changeset_body l r0 = Ok r →
  is_Some (r0 !! n) → is_Some (r !! n).
Proof.
  revert r0. induction l as [|a l IH]; intros r0; simpl.
  - by intros [= <-].
  - destruct (changeset_body r0 a) as [r1|e] eqn:Hbody; [|done]. simpl.
    intros Hloop Hn. eapply IH; [done|]. by eapply changeset_body_keeps.
Qed.

(** When the node identifies the changeset, the last word on the entry
    of the node is that of the changeset. *)
Lemma changeset_loop_entry (l : list changeset) (c : changeset) (rev_id : Z)
    (r0 r : gmap string revision_result) :
  parse_revision_id (desc c) = Some rev_id →
  (∀ c', c' ∈ l → cs_node c' = cs_node c → c' = c) →
  for_each changeset_body l r0 = Ok r →
  (cs_node c ∈ cs_node <$> l →
   ∃ e, r !! cs_node c = Some e ∧ revision_id e = rev_id ∧
        (all_skipped c → paths e = ∅)) ∧
  (cs_node c ∉ cs_node <$> l → r !! cs_node c = r0 !! cs_node c).
Proof.
  intros Hid. revert r0.
  induction l as [|a l IH]; intros r0 Huniq; simpl.
  { intros [= <-]. split; [|done]. by intros ?%elem_of_nil. }
  destruct (changeset_body r0 a) as [r1|e] eqn:Hbody; [|done]. simpl.
  intros Hloop.
  destruct (IH r1) as [Hin Hout]; [|done|].
  { intros c' Hc'. apply Huniq. by right. }
  destruct (decide (cs_node c ∈ cs_node <$> l)) as [Hl|Hl].
  - split; [by intros _; apply Hin|].
    intros Hnot. exfalso. apply Hnot. by right.
  - rewrite (Hout Hl). destruct (decide (cs_node a = cs_node c)) as [Ha|Ha].
    + assert (a = c) as -> by (apply Huniq; [by left|done]).
      split; [|intros Hnot; exfalso; apply Hnot; by left].
      intros _. by eapply changeset_body_entry.
    + split.
      * intros [Heq|Hc]%elem_of_cons; [congruence|done].
      * intros _. by eapply changeset_body_other.
Qed.

(** C10. A changeset whose description yields a revision id has an entry
    under its node in the results of [generate]. When the node identifies
    the changeset among the changesets, the entry carries the revision
    id of the changeset, and its mapping of paths is empty when every
    path of the changeset is skipped. *)
Theorem revision_entry_recorded (changesets : list changeset)
    (c : changeset) (rev_id : Z) (results : gmap string revision_result) :
  generate changesets = Ok results →
  c ∈ changesets →
  parse_revision_id (desc c) = Some rev_id →
  is_Some (results !! cs_node c) ∧
  ((∀ c', c' ∈ changesets → cs_node c' = cs_node c → c' = c) →
   ∃ entry, results !! cs_node c = Some entry ∧
            revision_id entry = rev_id ∧
            (all_skipped c → paths entry = ∅)).
Proof.
  intros Hgen Hc Hid. split.
  - apply list_elem_of_split in Hc as (l1 & l2 & ->).
    unfold generate in Hgen. rewrite for_each_app in Hgen.
    destruct (for_each changeset_body l1 ∅) as [r1|e]; [|done].
    simpl in Hgen.
    destruct (changeset_body r1 c) as [r2|e] eqn:Hbody; [|done].
    simpl in Hgen. eapply changeset_loop_keeps; [done|].
    destruct (changeset_body_entry _ _ _ _ Hbody Hid) as (e & He & _).
    by exists e.
  - intros Huniq.
    destruct (changeset_loop_entry _ _ _ _ _ Hid Huniq Hgen) as [Hin _].
    apply Hin. apply list_elem_of_fmap. by exists c.
Qed.

End generate_entries.

(** ** [_find_coverage] *)

Lemma split_not_nil (sep : ascii) (s : string) : split sep s ≠ [].
Proof.
  destruct s as [|c s]; simpl; [done|].
  destruct (decide (c = sep)); [done|]. by destruct (split sep s).
Qed.


Lemma split_no_separator (sep : ascii) (s : string) :
  Forall (λ part, sep ∉ String.list_ascii_of_string part) (split sep s).
Proof.
  induction s as [|c s IH]; simpl.
  - constructor; [|done]. simpl. apply not_elem_of_nil.
  - destruct (decide (c = sep)) as [->|Hne].
    + constructor; [|done]. simpl. apply not_elem_of_nil.
    + destruct (split sep s) as [|w ws].
      * constructor; [|done]. simpl.
        intros [?|?%elem_of_nil]%elem_of_cons; congruence.
      * apply Forall_cons in IH as [Hw Hws]. constructor; [|done]. simpl.
        intros [?|?]%elem_of_cons; [congruence|done].
Qed.

Lemma descend_reaches (report node : covdir) (before rest : list string) :
  reaches report before node →
  descend report (before ++ rest) = descend node rest.
Proof.
  induction 1 as [|report child target chn part parts Hchn Hpart _ IH];
    [done|].
  simpl. rewrite Hchn. simpl. by rewrite Hpart.
Qed.



(** ** Instances *)

Lemma added_line_statistics_witness :
  process_path "r0" example_get_annotate example_report "r1" "file" =
  Ok (Some {| lines_added := 1;
              lines_unknown := 1;
              lines_covered := 0;
              coverage_data := "NCXCU" |}).
Proof.
  destruct (added_line_statistics "r0" example_get_annotate example_report
              "r1" "file" example_raw example_build_annotate
              example_target_annotate
              (spec_build_map example_build_annotate example_raw))
    as (_ & _ & Hstats & _).
  - vm_compute. reflexivity.
  - vm_compute. reflexivity.
  - vm_compute. reflexivity.
  - vm_compute. reflexivity.
  - by_evaluation.
  - rewrite Hstats. vm_compute. reflexivity.
Defined.

Lemma missing_build_annotate_raises_witness :
  raises (generate "r9" example_get_annotate example_report
            example_changesets).
Proof.
  destruct (missing_build_annotate_raises "r9" example_get_annotate
              example_report example_changesets
              {| cs_node := "r1";
                 desc :=
         "Differential Revision: https://phabricator.services.mozilla.com/D1";
                 files := ["file"] |}
              1 "file" example_raw) as (_ & Hraises & _).
  - apply list_elem_of_here.
  - vm_compute. reflexivity.
  - apply list_elem_of_here.
  - vm_compute. reflexivity.
  - vm_compute. reflexivity.
  - exact Hraises.
Defined.

Lemma revision_entry_recorded_witness :
  ∃ entry,
    ({[ "r1" := {| revision_id := 1; paths := ∅ |} ]}
       : gmap string revision_result) !! "r1" = Some entry ∧
    revision_id entry = 1 ∧
    paths entry = ∅.
Proof.
  destruct (revision_entry_recorded "r0" example_get_annotate example_report
              [ {| cs_node := "r1";
                   desc :=
         "Differential Revision: https://phabricator.services.mozilla.com/D1";
                   files := ["generated.h"] |} ]
              {| cs_node := "r1";
                 desc :=
         "Differential Revision: https://phabricator.services.mozilla.com/D1";
                 files := ["generated.h"] |}
              1 {[ "r1" := {| revision_id := 1; paths := ∅ |} ]})
    as [_ Hentry].
  - vm_compute. reflexivity.
  - apply list_elem_of_here.
  - vm_compute. reflexivity.
  - destruct Hentry as (entry & Hlookup & Hid & Hpaths).
    + intros c' Hc' _. by apply list_elem_of_singleton in Hc'.
    + exists entry. split_and!; [exact Hlookup | exact Hid |].
      apply Hpaths. intros path Hpath.
      apply list_elem_of_singleton in Hpath. subst path.
      vm_compute. reflexivity.
Defined.

Lemma expected_absence_skips_witness :
  generate "r0" example_get_annotate example_report
    ([] ++ {| cs_node := "r2"; desc := "No review"; files := ["file"] |}
        :: example_changesets) =
  generate "r0" example_get_annotate example_report
    ([] ++ example_changesets) ∧
  generate "r0" example_get_annotate example_report
    ([] ++ {| cs_node := "r1";
              desc :=
         "Differential Revision: https://phabricator.services.mozilla.com/D1";
              files := ["file"] ++ "generated.h" :: [] |} :: []) =
  generate "r0" example_get_annotate example_report
    ([] ++ {| cs_node := "r1";
              desc :=
         "Differential Revision: https://phabricator.services.mozilla.com/D1";
              files := ["file"] ++ [] |} :: []) ∧
  generate "r0" example_get_annotate example_report
    ([] ++ {| cs_node := "r3";
              desc :=
         "Differential Revision: https://phabricator.services.mozilla.com/D3";
              files := [] ++ "file" :: [] |} :: []) =
  generate "r0" example_get_annotate example_report
    ([] ++ {| cs_node := "r3";
              desc :=
         "Differential Revision: https://phabricator.services.mozilla.com/D3";
              files := [] ++ [] |} :: []).
Proof.
  destruct (expected_absence_skips "r0" example_get_annotate example_report)
    as (Hrevision & Hreport & Htarget).
  split_and!.
  - apply Hrevision. vm_compute. reflexivity.
  - refine (proj2 (Hreport [] {| cs_node := "r1"; desc := _;
                                files := ["file"] ++ "generated.h" :: [] |}
                     [] ["file"] "generated.h" [] _ _)).
    + reflexivity.
    + vm_compute. reflexivity.
  - refine (proj2 (Htarget [] {| cs_node := "r3"; desc := _;
                                files := [] ++ "file" :: [] |}
                     [] [] "file" [] example_raw example_build_annotate
                     (spec_build_map example_build_annotate example_raw)
                     _ _ _ _ _)).
    + reflexivity.
    + vm_compute. reflexivity.
    + vm_compute. reflexivity.
    + vm_compute. reflexivity.
    + vm_compute. reflexivity.
Defined.

(** ** The test of the repository *)

(** [generate] returns on the data of [test_notification] what the test
    expects. *)
Example test_notification :
  generate "revision2" test_get_annotate test_report test_stack =
  Ok {[ "revision1" :=
          {| revision_id := 1;
             paths := {[ "file" :=
               {| lines_added := 3;
                  lines_unknown := 0;
                  lines_covered := 2;
                  coverage_data := "NCCU" |} ]} |};
        "revision2" :=
          {| revision_id := 2;
             paths := {[ "file" :=
               {| lines_added := 6;
                  lines_unknown := 0;
                  lines_covered := 0;
                  coverage_data := "NCCUUUUUUU" |} ]} |} ]}.
Proof. vm_compute. reflexivity. Qed.

(** * Further properties of the code *)

(** ** The coverage map across changesets *)

(** X1. Coverage follows a line across changesets. When a record of the
    build has its line within the bounds of the coverage record and no
    later record of the build has its key, every line of another
    changeset with that key is classified by the count of the line of the
    build: when two records of the build share a key, the later one
    decides. *)
Theorem remap_matched_line (before after target : list annotate_line)
    (q p : annotate_line) (raw : list Z) (m : gmap (string * Z) Z)
    (i : nat) (count : Z) :
  _build_coverage_map (before ++ q :: after) raw = Ok m →
  line_key q ∉ line_key <$> after →
  within_bounds (length raw) (lineno q - 1) →
  raw !! Z.to_nat (lineno q - 1) = Some count →
  target !! i = Some p →
  line_key p = line_key q →
  String.get i (_apply_coverage_map target m) =
  Some (spec_symbol_of_raw count).
Proof.
  intros Hbuild Hlast Hin Hcount Hp Hkey.
  rewrite (apply_map_get _ _ _ _ Hp), Hkey.
  unfold _build_coverage_map in Hbuild. rewrite for_each_app in Hbuild.
  destruct (for_each (build_body raw) before ∅) as [m1|e]; [|done].
  simpl in Hbuild.
  destruct (build_body raw m1 q) as [m2|e] eqn:Hbody; [|done].
  simpl in Hbuild. rewrite (build_loop_other _ _ _ _ _ Hlast Hbuild).
  by rewrite (build_body_within _ _ _ _ _ Hin Hcount Hbody).
Qed.

Lemma remap_matched_line_witness :
  String.get 3 (_apply_coverage_map example_target_annotate
                  (spec_build_map example_build_annotate example_raw)) =
  Some (spec_symbol_of_raw 1).
Proof.
  apply (remap_matched_line
           [ {| lineno := 1; targetline := 1; node := "r0" |};
             {| lineno := 2; targetline := 2; node := "r0" |} ]
           [ {| lineno := 4; targetline := 4; node := "r0" |} ]
           example_target_annotate
           {| lineno := 3; targetline := 3; node := "r0" |}
           {| lineno := 4; targetline := 3; node := "r0" |}
           example_raw).
  - vm_compute. reflexivity.
  - by_evaluation.
  - by_evaluation.
  - reflexivity.
  - reflexivity.
  - reflexivity.
Defined.

(** Every entry of a map that was built comes from a record that passed
    the guard, and holds the count that the subscript read there. *)
Lemma build_loop_entry (raw : list Z) (annotate : list annotate_line)
    (m0 m : gmap (string * Z) Z) (k : string * Z) (v : Z) :
  for_each (build_body raw) annotate m0 = Ok m →
  m !! k = Some v →
  m0 !! k = Some v ∨
  ∃ q, q ∈ annotate ∧ line_key q = k ∧
       lineno q - 1 < Z.of_nat (length raw) ∧
       py_index raw (lineno q - 1) = Ok v.
Proof.
  revert m0. induction annotate as [|a annotate IH]; intros m0; simpl.
  - intros [= <-] Hk. by left.
  - destruct (build_body raw m0 a) as [m1|e] eqn:Hbody; [|done]. simpl.
    intros Hloop Hk. destruct (IH _ Hloop Hk) as [Hm1|(q & Hq & ? & ? & ?)].
    + unfold build_body in Hbody.
      destruct (Z.ltb_spec (lineno a - 1) (Z.of_nat (length raw)));
        [|injection Hbody as <-; by left].
      destruct (py_index raw (lineno a - 1)) as [count|e] eqn:Hcount;
        [|done].
      simpl in Hbody. injection Hbody as <-.
      destruct (decide ((node a, targetline a) = k)) as [Heq|Hne].
      * rewrite Heq, lookup_insert_eq in Hm1. injection Hm1 as ->.
        right. exists a. split_and!; [by left|done..].
      * rewrite lookup_insert_ne in Hm1 by done. by left.
    + right. exists q. split_and!; [by right|done..].
Qed.

Lemma py_index_elem_of {A} (l : list A) (i : Z) (x : A) :
  py_index l i = Ok x → x ∈ l.
Proof.
  unfold py_index. destruct (_ && _); [|done].
  destruct (l !! _) as [y|] eqn:Hy; [|done].
  intros [= <-]. by eapply list_elem_of_lookup_2.
Qed.

(** X2. The map holds nothing of its own: each key of a map that
    [_build_coverage_map] returns is the key of a record of the annotate
    data, and each count is an element of the coverage record. *)
Theorem build_map_entries (annotate : list annotate_line) (raw : list Z)
    (m : gmap (string * Z) Z) (k : string * Z) (v : Z) :
  _build_coverage_map annotate raw = Ok m →
  m !! k = Some v →
  k ∈ line_key <$> annotate ∧ v ∈ raw.
Proof.
  intros Hbuild Hk.
  destruct (build_loop_entry _ _ _ _ _ _ Hbuild Hk)
    as [Hempty|(q & Hq & Hkey & _ & Hv)]; [by rewrite lookup_empty in Hempty|].
  split.
  - apply list_elem_of_fmap. by exists q.
  - by eapply py_index_elem_of.
Qed.

Lemma build_map_entries_witness :
  ("r0", 2) ∈ line_key <$> example_build_annotate ∧ 1 ∈ example_raw.
Proof.
  apply (build_map_entries example_build_annotate example_raw
           (spec_build_map example_build_annotate example_raw)).
  - vm_compute. reflexivity.
  - vm_compute. reflexivity.
Defined.

(** X3. A line is unknown when the build does not know its key: if no
    record of the build with the key of the line passes the guard of
    [_build_coverage_map], in particular if no record has that key or if
    the coverage record is too short for all of them, the line is
    classified [X]. *)
Theorem remap_unmatched_line (build target : list annotate_line)
    (raw : list Z) (m : gmap (string * Z) Z) (i : nat) (p : annotate_line) :
  _build_coverage_map build raw = Ok m →
  target !! i = Some p →
  (∀ q, q ∈ build → line_key q = line_key p →
        Z.of_nat (length raw) ≤ lineno q - 1) →
  String.get i (_apply_coverage_map target m) = Some "X"%char.
Proof.
  intros Hbuild Hp Hmiss. rewrite (apply_map_get _ _ _ _ Hp).
  destruct (m !! line_key p) as [v|] eqn:Hv; [|done].
  destruct (build_loop_entry _ _ _ _ _ _ Hbuild Hv)
    as [Hempty|(q & Hq & Hkey & Hguard & _)];
    [by rewrite lookup_empty in Hempty|].
  specialize (Hmiss q Hq Hkey). lia.
Qed.

Lemma remap_unmatched_line_witness :
  String.get 2 (_apply_coverage_map example_target_annotate
                  (spec_build_map example_build_annotate example_raw)) =
  Some "X"%char.
Proof.
  apply (remap_unmatched_line example_build_annotate example_target_annotate
           example_raw _ 2 {| lineno := 3; targetline := 1; node := "r1" |}).
  - vm_compute. reflexivity.
  - reflexivity.
  - intros q Hq Hkey. exfalso. revert Hkey.
    unfold example_build_annotate in Hq.
    repeat (apply elem_of_cons in Hq as [->|Hq]; [by intros [=]|]).
    by apply elem_of_nil in Hq.
Defined.

(** A turn of [_build_coverage_map] raises only through the subscript,
    on an index below [-len(coverage_record)]. *)
Lemma build_body_result (raw : list Z) (m : gmap (string * Z) Z)
    (p : annotate_line) :
  if decide (- Z.of_nat (length raw) ≤ lineno p - 1)
  then ∃ m', build_body raw m p = Ok m'
  else build_body raw m p = Raise IndexError.
Proof.
  unfold build_body, py_index.
  destruct (decide _) as [Hge|Hlt].
  - destruct (Z.ltb_spec (lineno p - 1) (Z.of_nat (length raw)));
      [|by eexists].
    destruct (Z.ltb_spec (lineno p - 1) 0).
    + destruct (Z.leb_spec 0 (lineno p - 1 + Z.of_nat (length raw))); [|lia].
      destruct (Z.ltb_spec (lineno p - 1 + Z.of_nat (length raw))
                  (Z.of_nat (length raw))); [|lia].
      simpl.
      destruct (lookup_lt_is_Some_2 raw
        (Z.to_nat (lineno p - 1 + Z.of_nat (length raw)))) as [c Hc]; [lia|].
      rewrite Hc. by eexists.
    + destruct (Z.leb_spec 0 (lineno p - 1)); [|lia].
      destruct (Z.ltb_spec (lineno p - 1) (Z.of_nat (length raw))); [|lia].
      simpl.
      destruct (lookup_lt_is_Some_2 raw (Z.to_nat (lineno p - 1)))
        as [c Hc]; [lia|].
      rewrite Hc. by eexists.
  - destruct (Z.ltb_spec (lineno p - 1) (Z.of_nat (length raw))); [|lia].
    destruct (Z.ltb_spec (lineno p - 1) 0); [|lia].
    destruct (Z.leb_spec 0 (lineno p - 1 + Z.of_nat (length raw))); [lia|].
    done.
Qed.

(** X4. [_build_coverage_map] raises exactly when some line number less
    one is below [-len(coverage_record)], and what it raises is
    [IndexError]; on any other input, whatever the lengths of the two
    sequences, it returns a map. *)
Theorem build_map_raises_iff (annotate : list annotate_line) (raw : list Z) :
  (Forall (λ p, - Z.of_nat (length raw) ≤ lineno p - 1) annotate →
   ∃ m, _build_coverage_map annotate raw = Ok m) ∧
  (Exists (λ p, lineno p - 1 < - Z.of_nat (length raw)) annotate →
   _build_coverage_map annotate raw = Raise IndexError).
Proof.
  unfold _build_coverage_map. generalize (∅ : gmap (string * Z) Z).
  induction annotate as [|p annotate IH]; intros m; simpl.
  - split; [by eexists|]. by intros ?%Exists_nil.
  - pose proof (build_body_result raw m p) as Hbody.
    destruct (decide _) as [Hge|Hlt].
    + destruct Hbody as [m' ->]. simpl. destruct (IH m') as [IHok IHraise].
      split.
      * intros [_ Hall]%Forall_cons. by apply IHok.
      * intros [?|Hex]%Exists_cons; [lia|]. by apply IHraise.
    + rewrite Hbody. simpl. split; [|done].
      intros [? _]%Forall_cons. lia.
Qed.

(** ** The classification string *)

(** X5. [_apply_coverage_map] writes no other character than [N], [C],
    [U] and [X]. *)
Theorem classification_alphabet (annotate : list annotate_line)
    (m : gmap (string * Z) Z) (i : nat) (c : ascii) :
  String.get i (_apply_coverage_map annotate m) = Some c →
  c = "N"%char ∨ c = "C"%char ∨ c = "U"%char ∨ c = "X"%char.
Proof.
  rewrite string_get_list, apply_map_chars, list_lookup_fmap.
  destruct (annotate !! i) as [p|]; [|done]. simpl. intros [= <-].
  unfold spec_symbol, spec_symbol_of_raw.
  destruct (m !! line_key p); repeat case_decide; auto.
Qed.

Lemma classification_alphabet_witness :
  "C"%char = "N"%char ∨ "C"%char = "C"%char ∨
  "C"%char = "U"%char ∨ "C"%char = "X"%char.
Proof.
  apply (classification_alphabet example_target_annotate
           (spec_build_map example_build_annotate example_raw) 1).
  vm_compute. reflexivity.
Defined.

Lemma list_ascii_inj (s t : string) :
  String.list_ascii_of_string s = String.list_ascii_of_string t → s = t.
Proof.
  intros Heq. rewrite <- (String.string_of_list_ascii_of_string s).
  rewrite <- (String.string_of_list_ascii_of_string t). by rewrite Heq.
Qed.

(** X6. The classification of a file is that of its parts: the string of
    two annotate lists one after the other is the string of the first
    followed by the string of the second, so a line is classified
    whatever the lines around it. *)
Theorem apply_map_app (m : gmap (string * Z) Z)
    (annotate1 annotate2 : list annotate_line) :
  _apply_coverage_map (annotate1 ++ annotate2) m =
  _apply_coverage_map annotate1 m +:+ _apply_coverage_map annotate2 m.
Proof.
  apply list_ascii_inj.
  by rewrite list_ascii_app, !apply_map_chars, fmap_app.
Qed.

(** ** The statistics *)

Lemma count_body_unfold (cls : string) (test : ascii → bool)
    (total line : Z) :
  count_body cls test total line =
  if line <? py_str_len cls then
    match py_str_index cls line with
    | Ok ch => Ok (total + (if test ch then 1 else 0))
    | Raise e => Raise e
    end
  else Ok total.
Proof. reflexivity. Qed.

Lemma count_loops_bounds (cls : string) (lines : list Z)
    (a u c a' u' c' : Z) :
  for_each (count_body cls is_not_N) lines a = Ok a' →
  for_each (count_body cls is_X) lines u = Ok u' →
  for_each (count_body cls is_C) lines c = Ok c' →
  0 ≤ u' - u ∧ 0 ≤ c' - c ∧
  (c' - c) + (u' - u) ≤ a' - a ≤ Z.of_nat (length lines).
Proof.
  revert a u c. induction lines as [|line lines IH]; intros a u c.
  - intros [= <-] [= <-] [= <-]. simpl. lia.
  - cbn [for_each]. rewrite !count_body_unfold.
    destruct (line <? py_str_len cls).
    + destruct (py_str_index cls line) as [ch|e]; [|done].
      intros Ha Hu Hc. specialize (IH _ _ _ Ha Hu Hc).
      unfold is_not_N, is_X, is_C in IH. cbn [length].
      repeat case_bool_decide; simplify_eq; simpl in IH; lia.
    + intros Ha Hu Hc. specialize (IH _ _ _ Ha Hu Hc). cbn [length]. lia.
Qed.

(** X7. The statistics of a path are consistent: the counts are not
    negative, the covered and the unknown lines are different lines
    among the added ones, and no more lines are added than the
    changeset introduced; the classification stored has one symbol per
    line of the file. *)
Theorem path_stats_bounds (cs : string) (annotate : list annotate_line)
    (coverage_map : gmap (string * Z) Z) (stats : path_result) :
  path_stats cs annotate coverage_map = Ok stats →
  0 ≤ lines_unknown stats ∧
  0 ≤ lines_covered stats ∧
  lines_covered stats + lines_unknown stats ≤ lines_added stats ∧
  lines_added stats ≤
    Z.of_nat (length (filter (λ line, node line = cs) annotate)) ∧
  coverage_data stats = _apply_coverage_map annotate coverage_map ∧
  py_str_len (coverage_data stats) = Z.of_nat (length annotate).
Proof.
  unfold path_stats, count_lines.
  destruct (for_each (count_body _ is_not_N) _ 0) as [a|e] eqn:Ha; [|done].
  destruct (for_each (count_body _ is_X) _ 0) as [u|e] eqn:Hu; [|done].
  destruct (for_each (count_body _ is_C) _ 0) as [c|e] eqn:Hc; [|done].
  simpl. intros [= <-]. simpl.
  pose proof (count_loops_bounds _ _ _ _ _ _ _ _ Ha Hu Hc) as Hbounds.
  unfold added_lines in Hbounds. rewrite length_fmap in Hbounds.
  split_and!; [lia..|done|]. unfold py_str_len. by rewrite apply_map_length.
Qed.

Lemma path_stats_bounds_witness :
  0 ≤ 1 ∧ 0 ≤ 0 ∧ 0 + 1 ≤ 1 ∧
  1 ≤ Z.of_nat (length (filter (λ line, node line = "r1")
                          example_target_annotate)) ∧
  "NCXCU" = _apply_coverage_map example_target_annotate
              (spec_build_map example_build_annotate example_raw) ∧
  py_str_len "NCXCU" = Z.of_nat (length example_target_annotate).
Proof.
  apply (path_stats_bounds "r1" example_target_annotate
           (spec_build_map example_build_annotate example_raw)
           {| lines_added := 1; lines_unknown := 1; lines_covered := 0;
              coverage_data := "NCXCU" |}).
  vm_compute. reflexivity.
Defined.

(** ** The outcomes of [_find_coverage] *)

Lemma descend_outcome (report : covdir) (parts : list string) :
  match descend report parts with
  | Ok (Some c) =>
      ∃ target, reaches report parts target ∧ coverage target = Some c
  | Ok None =>
      ∃ before part after target chn,
        parts = before ++ part :: after ∧
        reaches report before target ∧
        children target = Some chn ∧ chn !! part = None
  | Raise e =>
      e = KeyError ∧
      ((∃ target, reaches report parts target ∧ coverage target = None) ∨
       (∃ before part after target,
          parts = before ++ part :: after ∧
          reaches report before target ∧ children target = None))
  end.
Proof.
  revert report. induction parts as [|part parts IH]; intros report; simpl.
  - destruct (coverage report) as [c|] eqn:Hcov; simpl.
    + exists report. split; [constructor | done].
    + split; [done|]. left. exists report. split; [constructor | done].
  - destruct (children report) as [chn|] eqn:Hchn; simpl.
    + destruct (chn !! part) as [child|] eqn:Hpart.
      * specialize (IH child).
        destruct (descend child parts) as [[c|]|e].
        -- destruct IH as (target & Hreach & Hcov).
           exists target. split; [by econstructor | done].
        -- destruct IH as (before & p & after & target & chn' & -> & Hreach
                             & Hchn' & Hp).
           exists (part :: before), p, after, target, chn'.
           split_and!; [done | by econstructor | done..].
        -- destruct IH as [-> [(target & Hreach & Hcov)|
             (before & p & after & target & -> & Hreach & Hchn')]].
           ++ split; [done|]. left. exists target.
              split; [by econstructor | done].
           ++ split; [done|]. right.
              exists (part :: before), p, after, target.
              split_and!; [done | by econstructor | done].
      * exists [], part, parts, report, chn.
        split_and!; [done | constructor | done..].
    + split; [done|]. right. exists [], part, parts, report.
      split_and!; [done | constructor | done].
Qed.

(** X8. What [_find_coverage] returns is what the tree holds at the path:
    a coverage sequence returned is the one of the node reached through
    all the segments; "not found" means that some segment is missing from
    the children of the node reached through the segments before it; and
    the only exception raised is [KeyError], at a node that lacks the key
    that is read. *)
Theorem find_coverage_outcome (report : covdir) (path : string) :
  let parts := nonempty_parts (split "/" path) in
  (∀ c, _find_coverage report path = Ok (Some c) →
        ∃ target, reaches report parts target ∧ coverage target = Some c) ∧
  (_find_coverage report path = Ok None →
   ∃ before part after target chn,
     parts = before ++ part :: after ∧
     reaches report before target ∧
     children target = Some chn ∧ chn !! part = None) ∧
  (∀ e, _find_coverage report path = Raise e →
        e = KeyError ∧
        ((∃ target, reaches report parts target ∧ coverage target = None) ∨
         (∃ before part after target,
            parts = before ++ part :: after ∧
            reaches report before target ∧ children target = None))).
Proof.
  intros parts. unfold _find_coverage. fold parts.
  pose proof (descend_outcome report parts) as Hout.
  split_and!.
  - intros c Hc. by rewrite Hc in Hout.
  - intros Hnone. by rewrite Hnone in Hout.
  - intros e He. by rewrite He in Hout.
Qed.

(** ** Slashes in a path *)

Lemma split_app (sep : ascii) (s1 s2 : string) :
  split sep (s1 +:+ String sep s2) = split sep s1 ++ split sep s2.
Proof.
  induction s1 as [|c s1 IH].
  - change (EmptyString +:+ String sep s2) with (String sep s2). simpl.
    by rewrite decide_True.
  - change (String c s1 +:+ String sep s2)
      with (String c (s1 +:+ String sep s2)).
    simpl. rewrite IH.
    pose proof (split_not_nil sep s1) as Hnil.
    destruct (decide (c = sep)); [done|].
    by destruct (split sep s1).
Qed.

Lemma nonempty_parts_app (l1 l2 : list string) :
  nonempty_parts (l1 ++ l2) = nonempty_parts l1 ++ nonempty_parts l2.
Proof. unfold nonempty_parts. apply filter_app. Qed.

Lemma parts_app (s1 s2 : string) :
  nonempty_parts (split "/" (s1 +:+ String "/" s2)) =
  nonempty_parts (split "/" s1) ++ nonempty_parts (split "/" s2).
Proof. by rewrite split_app, nonempty_parts_app. Qed.

Lemma split_separator (sep : ascii) (s : string) :
  split sep (String sep s) = EmptyString :: split sep s.
Proof. cbn [split]. by rewrite decide_True. Qed.

Lemma nonempty_parts_empty (l : list string) :
  nonempty_parts (EmptyString :: l) = nonempty_parts l.
Proof. unfold nonempty_parts. by rewrite filter_cons_False by (by intros []). Qed.

(** X9. Slashes that separate nothing do not count: a slash at the start
    or at the end of the path, and a slash that is doubled, leave the
    result of [_find_coverage] as it is. *)
Theorem find_coverage_ignores_empty_segments (report : covdir)
    (path path' : string) :
  _find_coverage report (String "/" path) = _find_coverage report path ∧
  _find_coverage report (path +:+ "/") = _find_coverage report path ∧
  _find_coverage report (path +:+ "//" +:+ path') =
  _find_coverage report (path +:+ "/" +:+ path').
Proof.
  unfold _find_coverage. split_and!.
  - by rewrite split_separator, nonempty_parts_empty.
  - change (path +:+ "/") with (path +:+ String "/" EmptyString).
    rewrite parts_app. change (split "/" EmptyString) with [EmptyString].
    rewrite nonempty_parts_empty. unfold nonempty_parts at 2.
    by rewrite filter_nil, app_nil_r.
  - change (path +:+ "//" +:+ path')
      with (path +:+ String "/" (String "/" path')).
    change (path +:+ "/" +:+ path') with (path +:+ String "/" path').
    by rewrite !parts_app, split_separator, nonempty_parts_empty.
Qed.

(** X10. Looking up a path below a directory is looking up the rest of
    the path in the subtree of the directory: when the segments of
    [dir] lead from the report to a node, the result for [dir/path] is
    the result for [path] at that node. *)
Theorem find_coverage_in_subtree (report target : covdir)
    (dir path : string) :
  reaches report (nonempty_parts (split "/" dir)) target →
  _find_coverage report (dir +:+ "/" +:+ path) = _find_coverage target path.
Proof.
  intros Hreach. unfold _find_coverage.
  change (dir +:+ "/" +:+ path) with (dir +:+ String "/" path).
  rewrite parts_app. by apply descend_reaches.
Qed.

Lemma find_coverage_in_subtree_witness :
  _find_coverage
    (Covdir (Some {[ "dir" :=
       Covdir (Some {[ "file" := Covdir None (Some [1; 0]) ]}) None ]}) None)
    ("dir" +:+ "/" +:+ "file") =
  _find_coverage
    (Covdir (Some {[ "file" := Covdir None (Some [1; 0]) ]}) None) "file".
Proof.
  apply find_coverage_in_subtree.
  eapply reaches_child; [reflexivity | | constructor].
  vm_compute. reflexivity.
Defined.

(** ** The revision id of a description *)

Lemma search_unfold (s : string) :
  search s =
  match match_here s with
  | Some ds => Some ds
  | None =>
      match s with
      | EmptyString => None
      | String _ s' => search s'
      end
  end.
Proof. by destruct s. Qed.

Lemma lits_cons (c : ascii) (t : string) :
  lits (String c t) = Lit c :: lits t.
Proof. reflexivity. Qed.

Lemma match_prefix_lits (t : string) (ps : list pat) (s : string) :
  match_prefix (lits t ++ ps) (t +:+ s) = match_prefix ps s.
Proof.
  induction t as [|c t IH]; [done|].
  rewrite lits_cons. change (String c t +:+ s) with (String c (t +:+ s)).
  simpl. by rewrite bool_decide_eq_true_2.
Qed.

Lemma match_prefix_lits_end (t : string) (s : string) :
  match_prefix (lits t) (t +:+ s) = Some s.
Proof.
  rewrite <- (app_nil_r (lits t)), match_prefix_lits. done.
Qed.


(** No match starts at a character other than [D]. *)
Lemma match_here_first (c : ascii) (s : string) :
  c ≠ "D"%char → match_here (String c s) = None.
Proof.
  intros Hc. unfold match_here, PHABRICATOR_REVISION_PREFIX.
  rewrite lits_cons. simpl. by rewrite bool_decide_eq_false_2.
Qed.

Lemma search_skip (before s : string) :
  "D"%char ∉ String.list_ascii_of_string before →
  search (before +:+ s) = search s.
Proof.
  induction before as [|c before IH]; intros Hnot; [done|].
  change (String c before +:+ s) with (String c (before +:+ s)).
  simpl in Hnot. apply not_elem_of_cons in Hnot as [Hc Hnot].
  rewrite search_unfold, match_here_first by done. by apply IH.
Qed.

Lemma search_no_D (s : string) :
  "D"%char ∉ String.list_ascii_of_string s → search s = None.
Proof.
  induction s as [|c s IH]; intros Hnot; [done|].
  simpl in Hnot. apply not_elem_of_cons in Hnot as [Hc Hnot].
  rewrite search_unfold, match_here_first by done. by apply IH.
Qed.

(** X11. The revision id is found wherever it stands in the description:
    text without the letter [D] before the description changes nothing,
    and a description without the letter [D] has no revision id. *)
Theorem parse_revision_id_skips_text (before desc : string) :
  "D"%char ∉ String.list_ascii_of_string before →
  parse_revision_id (before +:+ desc) = parse_revision_id desc ∧
  parse_revision_id before = None.
Proof.
  intros Hnot. unfold parse_revision_id.
  by rewrite search_skip, (search_no_D before).
Qed.

Lemma parse_revision_id_skips_text_witness :
  parse_revision_id ("Bug 1 - fix, r=me " +:+
    "Differential Revision: https://phabricator.services.mozilla.com/D42") =
  parse_revision_id
    "Differential Revision: https://phabricator.services.mozilla.com/D42" ∧
  parse_revision_id "Bug 1 - fix, r=me " = None.
Proof.
  apply parse_revision_id_skips_text. by_evaluation.
Defined.





Lemma digit_value_digit (c : ascii) (d : Z) :
  digit_value c = Some d → is_digit d.
Proof.
  unfold digit_value, is_digit.
  destruct (Ascii.is_nat c) as [n|] eqn:Hn; [|done].
  simpl. intros [= <-].
  assert (n ≤ 9)%nat; [|lia].
  destruct c as [[] [] [] [] [] [] [] []]; simpl in Hn;
    try discriminate; injection Hn as <-; lia.
Qed.

Lemma take_digits_digits (s : string) : Forall is_digit (take_digits s).
Proof.
  induction s as [|c s IH]; simpl; [constructor|].
  destruct (digit_value c) as [d|] eqn:Hd; [|constructor].
  constructor; [by eapply digit_value_digit | done].
Qed.

Lemma match_here_digits (s : string) (ds : list Z) :
  match_here s = Some ds → ds ≠ [] ∧ Forall is_digit ds.
Proof.
  unfold match_here. destruct (match_prefix _ s) as [rest|]; [|done].
  pose proof (take_digits_digits rest) as Hds.
  destruct (take_digits rest) as [|d ds']; [done|]. by intros [= <-].
Qed.

Lemma search_digits (s : string) (ds : list Z) :
  search s = Some ds → ds ≠ [] ∧ Forall is_digit ds.
Proof.
  induction s as [|c s IH]; rewrite search_unfold.
  - destruct (match_here EmptyString) as [ds'|] eqn:Hm; [|done].
    intros [= <-]. by eapply match_here_digits.
  - destruct (match_here (String c s)) as [ds'|] eqn:Hm; [|done].
    intros [= <-]. by eapply match_here_digits.
Qed.

Lemma int_of_digits_bounds (ds : list Z) (n : Z) :
  Forall is_digit ds → 0 ≤ n →
  0 ≤ fold_left (λ n d, 10 * n + d) ds n < (n + 1) * 10 ^ Z.of_nat (length ds).
Proof.
  intros Hds. revert n. induction Hds as [|d ds Hd _ IH]; intros n Hn.
  - simpl. lia.
  - cbn [fold_left length]. unfold is_digit in Hd.
    specialize (IH (10 * n + d) ltac:(lia)).
    rewrite Nat2Z.inj_succ, Z.pow_succ_r by lia. nia.
Qed.

(** X13. A revision id is never negative, and it is below [10 ^ k] for
    some [k]: it is the value of a run of decimal digits that is not
    empty. *)
Theorem parse_revision_id_range (desc : string) (rev_id : Z) :
  parse_revision_id desc = Some rev_id →
  ∃ ds, ds ≠ [] ∧ Forall is_digit ds ∧ rev_id = int_of_digits ds ∧
        0 ≤ rev_id < 10 ^ Z.of_nat (length ds).
Proof.
  unfold parse_revision_id.
  destruct (search desc) as [ds|] eqn:Hsearch; [|done]. intros [= <-].
  destruct (search_digits _ _ Hsearch) as [Hne Hds].
  exists ds. split_and!; [done..| |].
  - by apply (int_of_digits_bounds ds 0).
  - pose proof (int_of_digits_bounds ds 0 Hds ltac:(lia)) as Hb.
    unfold int_of_digits. lia.
Qed.

Lemma parse_revision_id_range_witness :
  ∃ ds, ds ≠ [] ∧ Forall is_digit ds ∧ 1 = int_of_digits ds ∧
        0 ≤ 1 < 10 ^ Z.of_nat (length ds).
Proof.
  apply (parse_revision_id_range
    "Differential Revision: https://phabricator.services.mozilla.com/D1").
  vm_compute. reflexivity.
Defined.

(** ** [parse_revision_url] *)

Lemma match_text_prefix (ps : list pat) (s : string) :
  match_prefix ps s = snd <$> match_text ps s.
Proof.
  revert s. induction ps as [|p ps IH]; intros s; simpl; [done|].
  destruct s as [|c s]; [done|]. destruct (pat_matches p c); [|done].
  rewrite IH. by destruct (match_text ps s) as [[text rest]|].
Qed.

Lemma match_text_again (ps : list pat) (s text rest t : string) :
  match_text ps s = Some (text, rest) →
  match_prefix ps (text +:+ t) = Some t.
Proof.
  revert s text. induction ps as [|p ps IH]; intros s text; simpl.
  - by intros [= <- _].
  - destruct s as [|c s]; [done|].
    destruct (pat_matches p c) eqn:Hc; [|done].
    destruct (match_text ps s) as [[text' rest']|] eqn:Hm; [|done].
    intros [= <- <-].
    change (String c text' +:+ t) with (String c (text' +:+ t)).
    cbn [match_prefix]. rewrite Hc. by eapply IH.
Qed.

Lemma match_prefix_app (ps1 ps2 : list pat) (s : string) :
  match_prefix (ps1 ++ ps2) s =
  match match_prefix ps1 s with
  | Some rest => match_prefix ps2 rest
  | None => None
  end.
Proof.
  revert s. induction ps1 as [|p ps1 IH]; intros s; simpl; [done|].
  destruct s as [|c s]; [done|]. by destruct (pat_matches p c).
Qed.

Lemma take_digit_chars_digits (s : string) :
  take_digits (take_digit_chars s) = take_digits s.
Proof.
  induction s as [|c s IH]; simpl; [done|].
  destruct (digit_value c) as [d|] eqn:Hd; [|done].
  simpl. by rewrite Hd, IH.
Qed.

Lemma take_digit_chars_empty (s : string) :
  take_digit_chars s = EmptyString ↔ take_digits s = [].
Proof.
  destruct s as [|c s]; simpl; [done|]. by destruct (digit_value c).
Qed.

Lemma string_app_nil_r (s : string) : s +:+ EmptyString = s.
Proof.
  induction s as [|c s IH]; [done|].
  change (String c s +:+ EmptyString) with (String c (s +:+ EmptyString)).
  by rewrite IH.
Qed.

Lemma match_here_split (s : string) :
  match_here s =
  match match_prefix PHABRICATOR_REVISION_HEAD s with
  | Some rest =>
      match match_prefix PHABRICATOR_REVISION_URL rest with
      | Some rest' =>
          match take_digits rest' with
          | [] => None
          | ds => Some ds
          end
      | None => None
      end
  | None => None
  end.
Proof.
  unfold match_here.
  change PHABRICATOR_REVISION_PREFIX
    with (PHABRICATOR_REVISION_HEAD ++ PHABRICATOR_REVISION_URL).
  rewrite match_prefix_app.
  by destruct (match_prefix PHABRICATOR_REVISION_HEAD s).
Qed.

Lemma match_prefix_head (s : string) :
  match_prefix PHABRICATOR_REVISION_HEAD ("Differential Revision: " +:+ s) =
  Some s.
Proof. unfold PHABRICATOR_REVISION_HEAD. apply match_prefix_lits_end. Qed.

(** The two groups of a match at the start of a string. *)
Lemma match_here_url_spec (s : string) :
  match match_here_url s with
  | None => match_here s = None
  | Some url =>
      match_here s ≠ None ∧
      match_here ("Differential Revision: " +:+ url) = match_here s ∧
      match_prefix (lits "https://phabricator") url ≠ None
  end.
Proof.
  unfold match_here_url. rewrite (match_here_split s).
  destruct (match_prefix PHABRICATOR_REVISION_HEAD s) as [rest|]; [|done].
  rewrite (match_text_prefix PHABRICATOR_REVISION_URL rest).
  destruct (match_text PHABRICATOR_REVISION_URL rest)
    as [[text rest']|] eqn:Hm; [|done].
  cbn [fmap option_fmap option_map snd].
  destruct (take_digit_chars rest') as [|c digits] eqn:Hdigits.
  - apply take_digit_chars_empty in Hdigits. by rewrite Hdigits.
  - assert (take_digits rest' ≠ []) as Hne.
    { intros Hnil%take_digit_chars_empty. by rewrite Hnil in Hdigits. }
    rewrite match_here_split, match_prefix_head.
    rewrite (match_text_again _ _ _ _ _ Hm).
    rewrite <- Hdigits, take_digit_chars_digits.
    split_and!.
    + by destruct (take_digits rest').
    + done.
    + assert (match_prefix (lits "https://phabricator" ++
                ([Dot] ++ lits "services" ++ [Dot] ++ lits "mozilla" ++
                 [Dot] ++ lits "com/D"))
                (text +:+ take_digit_chars rest') ≠ None) as Hwhole.
      { by rewrite (match_text_again _ _ _ _ _ Hm). }
      rewrite match_prefix_app in Hwhole.
      intros Hnone. by rewrite Hnone in Hwhole.
Qed.

Lemma search_url_spec (s : string) :
  match search_url s with
  | None => search s = None
  | Some url =>
      search s ≠ None ∧
      search ("Differential Revision: " +:+ url) = search s ∧
      match_prefix (lits "https://phabricator") url ≠ None
  end.
Proof.
  assert (∀ s,
    match match_here_url s with
    | Some url =>
        search s ≠ None ∧
        search ("Differential Revision: " +:+ url) = search s ∧
        match_prefix (lits "https://phabricator") url ≠ None
    | None => True
    end) as Hhere.
  { intros s'. pose proof (match_here_url_spec s') as Hspec.
    destruct (match_here_url s') as [url|]; [|done].
    destruct Hspec as (Hsome & Hsame & Hhttps).
    rewrite (search_unfold s'), (search_unfold (_ +:+ url)), Hsame.
    destruct (match_here s'); done. }
  induction s as [|c s IH].
  - specialize (Hhere EmptyString).
    pose proof (match_here_url_spec EmptyString) as Hspec.
    cbn [search_url]. destruct (match_here_url EmptyString); [done|].
    by rewrite search_unfold, Hspec.
  - specialize (Hhere (String c s)).
    pose proof (match_here_url_spec (String c s)) as Hspec.
    cbn [search_url]. destruct (match_here_url (String c s)); [done|].
    rewrite search_unfold, Hspec. done.
Qed.

Lemma match_prefix_lits_inv (t s rest : string) :
  match_prefix (lits t) s = Some rest → s = t +:+ rest.
Proof.
  revert s. induction t as [|c t IH]; intros s.
  - by intros [= ->].
  - rewrite lits_cons. cbn [match_prefix].
    destruct s as [|c' s]; [done|]. cbn [pat_matches].
    case_bool_decide as Hc; [|done]. subst c'. intros Hrest.
    change (String c t +:+ rest) with (String c (t +:+ rest)).
    f_equal. by apply IH.
Qed.

(** X14. The two parsers agree. [parse_revision_url] finds a link exactly
    when [parse_revision_id] finds an id; the link starts with
    [https://phabricator], and a description made of the link alone
    yields the same id as the whole description. *)
Theorem parse_revision_url_id (desc : string) :
  (parse_revision_url desc = None ↔ parse_revision_id desc = None) ∧
  ∀ url, parse_revision_url desc = Some url →
    (∃ rest, url = "https://phabricator" +:+ rest) ∧
    parse_revision_id ("Differential Revision: " +:+ url) =
    parse_revision_id desc.
Proof.
  unfold parse_revision_url, parse_revision_id.
  pose proof (search_url_spec desc) as Hspec.
  destruct (search_url desc) as [url|].
  - destruct Hspec as (Hsome & Hsame & Hhttps). split.
    + destruct (search desc); [|done]. by split.
    + intros url' [= <-]. rewrite Hsame. split; [|done].
      destruct (match_prefix (lits "https://phabricator") url)
        as [rest|] eqn:Hrest; [|done].
      exists rest. by apply match_prefix_lits_inv.
  - rewrite Hspec. by split.
Qed.

(** ** What [generate] returns and when it raises *)

Section generate_results.

Variable revision : string.
Variable get_annotate : string → string → option (list annotate_line).
Variable report : covdir.

Local Abbreviation process_path :=
  (process_path revision get_annotate report).
Local Abbreviation path_body := (path_body revision get_annotate report).
Local Abbreviation changeset_body :=
  (changeset_body revision get_annotate report).
Local Abbreviation generate := (generate revision get_annotate report).
Local Abbreviation entry_of := (entry_of revision get_annotate report).

Lemma path_body_unfold (cs path : string)
    (results : gmap string revision_result) :
  path_body cs results path =
  match process_path cs path with
  | Ok (Some stats) => store_path cs path stats results
  | Ok None => Ok results
  | Raise e => Raise e
  end.
Proof.
  unfold path_body. by destruct (process_path cs path) as [[stats|]|].
Qed.

(** The paths recorded by the loop over the files of a changeset. *)
Lemma path_loop_paths (cs : string) (fs : list string)
    (r0 r : gmap string revision_result) (e0 : revision_result) :
  for_each (path_body cs) fs r0 = Ok r →
  r0 !! cs = Some e0 →
  ∃ e, r !! cs = Some e ∧ revision_id e = revision_id e0 ∧
    ∀ path,
      paths e !! path =
      match process_path cs path with
      | Ok (Some stats) =>
          if decide (path ∈ fs) then Some stats else paths e0 !! path
      | _ => paths e0 !! path
      end.
Proof.
  revert r0 e0. induction fs as [|f fs IH]; intros r0 e0.
  - intros [= <-] He0. exists e0. split_and!; [done..|].
    intros path. by destruct (process_path cs path) as [[stats|]|].
  - cbn [for_each]. rewrite path_body_unfold.
    destruct (process_path cs f) as [[stats_f|]|err] eqn:Hf; [| |done].
    + unfold store_path. intros Hloop He0.
      rewrite He0 in Hloop. cbn [mbind result_bind py_getitem] in Hloop.
      destruct (IH _ _ Hloop (lookup_insert_eq _ _ _))
        as (e & He & Hid & Hpaths).
      exists e. split_and!; [done..|]. intros path. rewrite Hpaths.
      cbn [paths]. destruct (decide (path = f)) as [->|Hne].
      * rewrite Hf, lookup_insert_eq.
        rewrite (decide_True (P := f ∈ f :: fs)) by (by left).
        by destruct (decide (f ∈ fs)).
      * rewrite lookup_insert_ne by done.
        destruct (process_path cs path) as [[stats|]|]; try done.
        destruct (decide (path ∈ fs)) as [Hin|Hout].
        -- by rewrite decide_True by (by right).
        -- rewrite decide_False; [done|].
           by intros [?|?]%elem_of_cons.
    + cbn [mbind result_bind]. intros Hloop He0.
      destruct (IH _ _ Hloop He0) as (e & He & Hid & Hpaths).
      exists e. split_and!; [done..|]. intros path. rewrite Hpaths.
      destruct (decide (path = f)) as [->|Hne]; [by rewrite Hf|].
      destruct (process_path cs path) as [[stats|]|]; try done.
      destruct (decide (path ∈ fs)) as [Hin|Hout].
      * by rewrite decide_True by (by right).
      * rewrite decide_False; [done|]. by intros [?|?]%elem_of_cons.
Qed.

Lemma changeset_body_paths (c : changeset) (rev_id : Z)
    (r0 r1 : gmap string revision_result) :
  changeset_body r0 c = Ok r1 →
  parse_revision_id (desc c) = Some rev_id →
  ∃ e, r1 !! cs_node c = Some e ∧ entry_of c e.
Proof.
  unfold changeset_body. intros Hloop Hid. rewrite Hid in Hloop.
  destruct (path_loop_paths _ _ _ _ _ Hloop (lookup_insert_eq _ _ _))
    as (e & He & Hrev & Hpaths).
  exists e. split; [done|]. split; [by rewrite Hid, Hrev|].
  intros path stats. rewrite Hpaths. cbn [paths]. rewrite lookup_empty.
  destruct (process_path (cs_node c) path) as [[stats'|]|].
  - destruct (decide (path ∈ files c)); split.
    + intros [= ->]. done.
    + intros [_ [= ->]]. done.
    + done.
    + by intros [? _].
  - split; [done|]. by intros [_ ?].
  - split; [done|]. by intros [_ ?].
Qed.

Lemma changeset_loop_paths (l : list changeset) (n : string)
    (r0 r : gmap string revision_result) (e : revision_result) :
  for_each changeset_body l r0 = Ok r →
  r !! n = Some e →
  r0 !! n = Some e ∨ ∃ c, c ∈ l ∧ cs_node c = n ∧ entry_of c e.
Proof.
  revert r0. induction l as [|a l IH]; intros r0.
  - intros [= <-] He. by left.
  - cbn [for_each].
    destruct (changeset_body r0 a) as [r1|err] eqn:Hbody; [|done].
    cbn [mbind result_bind]. intros Hloop He.
    destruct (IH _ Hloop He) as [Hr1|(c & Hc & Hn & Hentry)].
    + destruct (decide (cs_node a = n)) as [Ha|Ha].
      * destruct (parse_revision_id (desc a)) as [id|] eqn:Hid.
        -- destruct (changeset_body_paths _ _ _ _ Hbody Hid)
             as (e' & He' & Hentry).
           rewrite Ha, Hr1 in He'. injection He' as <-.
           right. exists a. split_and!; [by left|done..].
        -- unfold changeset_body in Hbody. rewrite Hid in Hbody.
           injection Hbody as <-. by left.
      * left. by rewrite <- (changeset_body_other revision get_annotate
                              report _ _ _ _ Hbody Ha).
    + right. exists c. split_and!; [by right|done..].
Qed.

(** X15. The results of [generate] hold nothing but what the changesets
    give: every entry stands under the node of a changeset whose
    description yields the revision id of the entry, and its paths are
    the files of that changeset that were not skipped, each with the
    statistics computed for it. *)
Theorem generate_entries_from_changesets (changesets : list changeset)
    (results : gmap string revision_result) (n : string)
    (e : revision_result) :
  generate changesets = Ok results →
  results !! n = Some e →
  ∃ c, c ∈ changesets ∧ cs_node c = n ∧
       parse_revision_id (desc c) = Some (revision_id e) ∧
       ∀ path stats,
         paths e !! path = Some stats ↔
         path ∈ files c ∧ process_path n path = Ok (Some stats).
Proof.
  intros Hgen He.
  destruct (changeset_loop_paths _ _ _ _ _ Hgen He)
    as [Hempty|(c & Hc & Hn & Hid & Hpaths)];
    [by rewrite lookup_empty in Hempty|].
  exists c. split_and!; [done..|]. by rewrite <- Hn.
Qed.




End generate_results.

Lemma generate_entries_from_changesets_witness :
  ∃ c, c ∈ example_changesets ∧ cs_node c = "r1" ∧
       parse_revision_id (desc c) = Some 1 ∧
       ∀ path stats,
         ({[ "file" :=
              {| lines_added := 1; lines_unknown := 1; lines_covered := 0;
                 coverage_data := "NCXCU" |} ]}
            : gmap string path_result) !! path = Some stats ↔
         path ∈ files c ∧
         process_path "r0" example_get_annotate example_report "r1" path =
         Ok (Some stats).
Proof.
  destruct (generate_entries_from_changesets "r0" example_get_annotate
              example_report
           example_changesets
           {[ "r1" :=
              {| revision_id := 1;
                 paths := {[ "file" :=
                   {| lines_added := 1; lines_unknown := 1;
                      lines_covered := 0; coverage_data := "NCXCU" |} ]} |} ]}
           "r1"
           {| revision_id := 1;
              paths := {[ "file" :=
                {| lines_added := 1; lines_unknown := 1;
                   lines_covered := 0; coverage_data := "NCXCU" |} ]} |})
    as (c & Hc & Hn & Hid & Hpaths).
  - vm_compute. reflexivity.
  - vm_compute. reflexivity.
  - exists c. split_and!; [exact Hc | exact Hn | exact Hid | exact Hpaths].
Defined.

(** ** [is_third_party] *)

Lemma startswith_app (s prefix : string) :
  startswith s prefix = true ↔ ∃ rest, s = prefix +:+ rest.
Proof.
  unfold startswith. revert s.
  induction prefix as [|c prefix IH]; intros s.
  - split; [|by destruct s]. intros _. by exists s.
  - destruct s as [|c' s]; simpl.
    + split; [done|]. by intros [rest [=]].
    + destruct (ascii_dec c c') as [<-|Hne].
      * rewrite IH. split.
        -- intros [rest ->]. by exists rest.
        -- intros [rest Hrest]. exists rest.
           change (String c prefix +:+ rest)
             with (String c (prefix +:+ rest)) in Hrest.
           by injection Hrest.
      * split; [done|]. intros [rest Hrest].
        change (String c prefix +:+ rest)
          with (String c (prefix +:+ rest)) in Hrest.
        by injection Hrest as -> _.
Qed.

(** X17. A path is third party exactly when it begins with one of the
    lines of the exclusion list. An empty line in the list therefore
    makes every path third party, and an empty list none. *)
Theorem is_third_party_prefix (third_parties : list string) (path : string) :
  (is_third_party third_parties path = true ↔
   ∃ third_party rest,
     third_party ∈ third_parties ∧ path = third_party +:+ rest) ∧
  (EmptyString ∈ third_parties → is_third_party third_parties path = true) ∧
  is_third_party [] path = false.
Proof.
  assert (is_third_party third_parties path = true ↔
    ∃ third_party rest,
      third_party ∈ third_parties ∧ path = third_party +:+ rest) as Hiff.
  { induction third_parties as [|tp tps IH]; simpl.
    - split; [done|]. by intros (? & ? & ?%elem_of_nil & _).
    - destruct (startswith path tp) eqn:Htp.
      + split; [|done]. intros _.
        apply startswith_app in Htp as [rest ->].
        exists tp, rest. split; [by left | done].
      + rewrite IH. split.
        * intros (t & rest & Ht & ->). exists t, rest.
          split; [by right | done].
        * intros (t & rest & Ht & ->).
          apply elem_of_cons in Ht as [->|Ht]; [|by exists t, rest].
          assert (startswith (tp +:+ rest) tp = true) as Htrue
            by (apply startswith_app; by exists rest).
          by rewrite Htrue in Htp. }
  split_and!; [done| |done].
  intros Hempty. apply Hiff. by exists EmptyString, path.
Qed.

(** ** [is_supported_extension] *)

Lemma string_length_app (s t : string) :
  String.length (s +:+ t) = (String.length s + String.length t)%nat.
Proof. by rewrite !string_length_list, list_ascii_app, length_app. Qed.

Lemma rfind_from_app (c : ascii) (u t : string) (i last : Z) :
  rfind_from c (u +:+ t) i last =
  rfind_from c t (i + Z.of_nat (String.length u)) (rfind_from c u i last).
Proof.
  revert i last. induction u as [|a u IH]; intros i last.
  - change (EmptyString +:+ t) with t. simpl. by rewrite Z.add_0_r.
  - change (String a u +:+ t) with (String a (u +:+ t)).
    cbn [rfind_from String.length]. rewrite IH. f_equal. lia.
Qed.

Lemma rfind_from_absent (c : ascii) (s : string) (i last : Z) :
  c ∉ String.list_ascii_of_string s → rfind_from c s i last = last.
Proof.
  revert i last. induction s as [|a s IH]; intros i last Hnot; [done|].
  simpl in Hnot. apply not_elem_of_cons in Hnot as [Hne Hnot].
  cbn [rfind_from]. rewrite decide_False by done. by apply IH.
Qed.

Lemma rfind_from_upper (c : ascii) (s : string) (i last : Z) :
  last < i → rfind_from c s i last < i + Z.of_nat (String.length s).
Proof.
  revert i last. induction s as [|a s IH]; intros i last Hlt.
  - simpl. lia.
  - cbn [rfind_from String.length].
    specialize (IH (i + 1) (if decide (a = c) then i else last)).
    destruct (decide (a = c)); lia.
Qed.

Lemma rfind_from_lower (c : ascii) (s : string) (i last : Z) :
  last < i → last ≤ rfind_from c s i last.
Proof.
  revert i last. induction s as [|a s IH]; intros i last Hlt; [done|].
  cbn [rfind_from].
  specialize (IH (i + 1) (if decide (a = c) then i else last)).
  destruct (decide (a = c)); lia.
Qed.

Lemma rfind_from_present (c : ascii) (s : string) (i last : Z) :
  last < i → c ∈ String.list_ascii_of_string s → i ≤ rfind_from c s i last.
Proof.
  revert i last. induction s as [|a s IH]; intros i last Hlt Hin.
  - by apply elem_of_nil in Hin.
  - cbn [rfind_from].
    destruct (decide (c ∈ String.list_ascii_of_string s)) as [Hs|Hs].
    + assert ((if decide (a = c) then i else last) < i + 1) as Hlt'
        by (destruct (decide (a = c)); lia).
      specialize (IH _ _ Hlt' Hs). lia.
    + simpl in Hin. apply elem_of_cons in Hin as [->|Hin]; [|done].
      rewrite decide_True by done. by rewrite rfind_from_absent.
Qed.

(** The last occurrence of a character. *)
Lemma rfind_last (c : ascii) (before after : string) :
  c ∉ String.list_ascii_of_string after →
  rfind c (before +:+ String c after) = Z.of_nat (String.length before).
Proof.
  intros Hnot. unfold rfind. rewrite rfind_from_app. cbn [rfind_from].
  rewrite decide_True by done. by rewrite rfind_from_absent.
Qed.

Lemma rfind_split (c : ascii) (s : string) :
  c ∈ String.list_ascii_of_string s →
  ∃ before after,
    s = before +:+ String c after ∧ c ∉ String.list_ascii_of_string after.
Proof.
  induction s as [|a s IH]; intros Hin; [by apply elem_of_nil in Hin|].
  destruct (decide (c ∈ String.list_ascii_of_string s)) as [Hs|Hs].
  - destruct (IH Hs) as (before & after & -> & Hafter).
    by exists (String a before), after.
  - simpl in Hin. apply elem_of_cons in Hin as [->|Hin]; [|done].
    by exists EmptyString, s.
Qed.

Lemma substring_all (t : string) : String.substring 0 (String.length t) t = t.
Proof. induction t as [|c t IH]; simpl; [done | by rewrite IH]. Qed.

Lemma py_drop_app (before t : string) :
  py_drop (Z.of_nat (String.length before)) (before +:+ t) = t.
Proof.
  unfold py_drop. rewrite Nat2Z.id, string_length_app.
  replace (String.length before + String.length t - String.length before)%nat
    with (String.length t) by lia.
  induction before as [|c before IH]; [apply substring_all|].
  change (String c before +:+ t) with (String c (before +:+ t)).
  simpl. apply IH.
Qed.

Lemma skip_leading_dots_result (n : nat) (p : string) (f d : Z) :
  skip_leading_dots n p f d = (p, EmptyString) ∨
  skip_leading_dots n p f d = (py_take d p, py_drop d p).
Proof.
  revert f. induction n as [|n IH]; intros f; simpl; [by left|].
  destruct (decide _); [apply IH | by right].
Qed.

Lemma skip_leading_dots_found (n : nat) (p : string) (f d j : Z) :
  n = Z.to_nat (d - f) → 0 ≤ f ≤ j → j < d →
  String.get (Z.to_nat j) p ≠ Some "."%char →
  skip_leading_dots n p f d = (py_take d p, py_drop d p).
Proof.
  revert f. induction n as [|n IH]; intros f Hn Hf Hj Hget; [lia|].
  simpl. destruct (decide _) as [Hdot|]; [|done].
  destruct (decide (f = j)) as [->|Hne]; [done|].
  apply IH; [lia..|done].
Qed.

Lemma string_get_app_r (before t : string) :
  String.get (String.length before) (before +:+ t) = String.get 0 t.
Proof.
  induction before as [|c before IH]; [done|].
  change (String c before +:+ t) with (String c (before +:+ t)).
  simpl. apply IH.
Qed.

Lemma string_app_assoc (s t u : string) :
  (s +:+ t) +:+ u = s +:+ (t +:+ u).
Proof.
  induction s as [|c s IH]; [done|].
  change ((String c s +:+ t) +:+ u) with (String c ((s +:+ t) +:+ u)).
  by rewrite IH.
Qed.

(** The split of a path at its last dot, when the file name has a
    character other than a dot before it. *)
Lemma splitext_regular (dir rest ext : string) (a : ascii) :
  a ≠ "."%char → a ≠ "/"%char →
  "/"%char ∉ String.list_ascii_of_string rest →
  "."%char ∉ String.list_ascii_of_string ext →
  "/"%char ∉ String.list_ascii_of_string ext →
  (splitext ((dir +:+ String a rest) +:+ String "." ext)).2 =
  String "." ext.
Proof.
  intros Hdot Hsep Hrest Hext Hext'. unfold splitext.
  rewrite rfind_last by done.
  assert (rfind "/" ((dir +:+ String a rest) +:+ String "." ext) =
          rfind "/" dir) as ->.
  { unfold rfind. rewrite rfind_from_app, rfind_from_app.
    rewrite (rfind_from_absent _ (String a rest)).
    - rewrite rfind_from_absent; [done|]. simpl.
      intros [?|?]%elem_of_cons; done.
    - simpl. intros [?|?]%elem_of_cons; done. }
  pose proof (rfind_from_upper "/" dir 0 (-1) ltac:(lia)) as Hupper.
  pose proof (rfind_from_lower "/" dir 0 (-1) ltac:(lia)) as Hlower.
  fold (rfind "/" dir) in Hupper, Hlower.
  rewrite string_length_app. cbn [String.length].
  destruct (Z.gtb_spec (Z.of_nat (String.length dir + S (String.length rest)))
              (rfind "/" dir)); [|lia].
  rewrite (skip_leading_dots_found _ _ _ _
             (Z.of_nat (String.length dir))); [| lia.. |].
  - cbn [snd].
    replace (Z.of_nat (String.length dir + S (String.length rest)))
      with (Z.of_nat (String.length (dir +:+ String a rest))).
    + apply py_drop_app.
    + by rewrite string_length_app.
  - rewrite Nat2Z.id, string_app_assoc, string_get_app_r. simpl.
    by intros [= ->].
Qed.

Section extension_properties.

Variable COVERAGE_EXTENSIONS : list string.

Local Abbreviation is_supported_extension :=
  (is_supported_extension COVERAGE_EXTENSIONS).

(** X18. Only a path that ends with a dot and a listed extension is
    supported: when [is_supported_extension] answers [True] the path is
    some stem, a dot and an extension of [COVERAGE_EXTENSIONS] without a
    dot or a slash in it; in particular a path without a dot is not
    supported. *)
Theorem is_supported_extension_true (path : string) :
  is_supported_extension path = true →
  "."%char ∈ String.list_ascii_of_string path ∧
  ∃ stem ext,
    path = (stem +:+ String "." ext) ∧
    ext ∈ COVERAGE_EXTENSIONS ∧
    ("."%char ∉ String.list_ascii_of_string ext) ∧
    ("/"%char ∉ String.list_ascii_of_string ext).
Proof.
  unfold is_supported_extension.
  destruct (splitext path) as [root ext] eqn:Hsplit. cbn [snd].
  destruct ext as [|c0 ext1]; [done|]. intros Hin%bool_decide_eq_true.
  unfold splitext in Hsplit.
  pose proof (rfind_from_lower "/" path 0 (-1) ltac:(lia)) as Hsep.
  fold (rfind "/" path) in Hsep.
  destruct (Z.gtb_spec (rfind "." path) (rfind "/" path)) as [Hgt|];
    [|by injection Hsplit].
  destruct (decide ("."%char ∈ String.list_ascii_of_string path))
    as [Hdot|Hdot].
  2: { assert (rfind "." path = -1) by (by apply rfind_from_absent). lia. }
  split; [done|].
  destruct (rfind_split _ _ Hdot) as (before & after & -> & Hafter).
  rewrite rfind_last in Hsplit, Hgt by done.
  destruct (skip_leading_dots_result
              (Z.to_nat (Z.of_nat (String.length before) -
                 (rfind "/" (before +:+ String "." after) + 1)))
              (before +:+ String "." after)
              (rfind "/" (before +:+ String "." after) + 1)
              (Z.of_nat (String.length before))) as [Hres|Hres];
    rewrite Hres in Hsplit; [by injection Hsplit|].
  rewrite py_drop_app in Hsplit. injection Hsplit as _ <- <-.
  exists before, after. split_and!; [done..|].
  intros Hslash. unfold rfind in Hgt. rewrite rfind_from_app in Hgt.
  pose proof (rfind_from_upper "/" before 0 (-1) ltac:(lia)) as Hupper.
  pose proof (rfind_from_present "/" (String "." after)
                (0 + Z.of_nat (String.length before))
                (rfind_from "/" before 0 (-1)) ltac:(lia)) as Hpresent.
  assert ("/"%char ∈ String.list_ascii_of_string (String "." after))
    as Hin' by (simpl; by right).
  specialize (Hpresent Hin'). lia.
Qed.

(** X19. A file whose name is a dot followed by a name without a dot
    has no extension: whatever the list of extensions, it is not
    supported. *)
Theorem is_supported_extension_hidden (stem name : string) :
  stem = EmptyString ∨ (∃ dir, stem = dir +:+ "/") →
  "."%char ∉ String.list_ascii_of_string name →
  "/"%char ∉ String.list_ascii_of_string name →
  is_supported_extension (stem +:+ String "." name) = false.
Proof.
  intros Hstem Hdot Hsep. unfold is_supported_extension, splitext.
  rewrite rfind_last by done.
  assert ("/"%char ∉ String.list_ascii_of_string (String "." name)) as Hsep'.
  { simpl. by intros [?|?]%elem_of_cons. }
  destruct Hstem as [->|[dir ->]].
  - change (EmptyString +:+ String "." name) with (String "." name).
    assert (rfind "/" (String "." name) = -1) as ->
      by (by apply rfind_from_absent).
    done.
  - change (dir +:+ "/") with (dir +:+ String "/" EmptyString).
    rewrite string_app_assoc.
    change (String "/" EmptyString +:+ String "." name)
      with (String "/" (String "." name)).
    rewrite rfind_last by done.
    rewrite string_length_app. cbn [String.length].
    destruct (Z.gtb_spec (Z.of_nat (String.length dir + 1))
                (Z.of_nat (String.length dir))); [|lia].
    replace (Z.to_nat (Z.of_nat (String.length dir + 1) -
               (Z.of_nat (String.length dir) + 1))) with 0%nat by lia.
    done.
Qed.

(** X20. A file name that has a character other than a dot before its
    last dot is supported exactly when what follows that dot is in
    [COVERAGE_EXTENSIONS]; the directories before the name do not
    count, even with dots in them. *)
Theorem is_supported_extension_regular (dir rest ext : string) (a : ascii) :
  a ≠ "."%char → a ≠ "/"%char →
  "/"%char ∉ String.list_ascii_of_string rest →
  "."%char ∉ String.list_ascii_of_string ext →
  "/"%char ∉ String.list_ascii_of_string ext →
  is_supported_extension ((dir +:+ String a rest) +:+ String "." ext) =
  bool_decide (ext ∈ COVERAGE_EXTENSIONS).
Proof.
  intros Hdot Hsep Hrest Hext Hext'. unfold is_supported_extension.
  by rewrite splitext_regular.
Qed.

End extension_properties.

Lemma is_supported_extension_true_witness :
  "."%char ∈ String.list_ascii_of_string "js/src/jit.cpp" ∧
  ∃ stem ext,
    "js/src/jit.cpp" = (stem +:+ String "." ext) ∧
    ext ∈ ["c"; "cpp"; "h"] ∧
    ("."%char ∉ String.list_ascii_of_string ext) ∧
    ("/"%char ∉ String.list_ascii_of_string ext).
Proof.
  apply (is_supported_extension_true ["c"; "cpp"; "h"] "js/src/jit.cpp").
  vm_compute. reflexivity.
Defined.

Lemma is_supported_extension_hidden_witness :
  is_supported_extension ["c"; "eslintrc"]
    (("tools" +:+ "/") +:+ String "." "eslintrc") = false.
Proof.
  apply is_supported_extension_hidden.
  - right. by exists "tools".
  - by_evaluation.
  - by_evaluation.
Defined.

Lemma is_supported_extension_regular_witness :
  is_supported_extension ["c"; "cpp"; "h"]
    (("third.party/" +:+ String "j" "it.tar") +:+ String "." "cpp") =
  bool_decide ("cpp" ∈ ["c"; "cpp"; "h"]).
Proof.
  apply is_supported_extension_regular.
  - by_evaluation.
  - by_evaluation.
  - by_evaluation.
  - by_evaluation.
  - by_evaluation.
Defined.
